(** * nestjs-google-drive-sdk: file utilities, error taxonomy and service

    A shallow embedding of [src/utils/file.utils.ts],
    [src/errors/google-drive.error.ts] and
    [src/services/google-drive.service.ts].

    Conventions of the embedding.
    - A JavaScript string is a [string]; each character stands for one
      UTF-16 code unit in the range U+0000..U+00FF, so the development
      covers the Latin-1 strings, on which [trim], [toLowerCase], [split]
      and the regular expression of [validateFileName] are modelled exactly.
    - A [number] that counts bytes is an integer of [Z]; [NaN] results of
      [parseInt] are [None].
    - A value of unknown type (a rejection reason caught by [catch]) is a
      [JsValue].
    - Calls to the logger are not modelled: they neither return a value
      the code uses nor change what the operations return. *)

From Stdlib Require Import ZArith Lia Bool List Ascii String DecimalPos DecimalN.
From stdpp Require Import gmap strings list fin_maps.

Set Warnings "-register-all".
Set Default Proof Using "Type".

Open Scope string_scope.
Open Scope Z_scope.

(** ** JavaScript string primitives *)

Module Js.

(** The code unit of a character. *)
Definition code (c : ascii) : N := N_of_ascii c.

(** [WhiteSpace] and [LineTerminator] of ECMAScript below U+0100: TAB, LF,
    VT, FF, CR, SP and NBSP.  This is the set [String.prototype.trim] and
    [parseInt] strip. *)
Definition isWhiteSpace (c : ascii) : bool :=
  let n := code c in
  ((9 <=? n) && (n <=? 13) || (n =? 32) || (n =? 160))%N.

Fixpoint trimStart (s : string) : string :=
  match s with
  | EmptyString => EmptyString
  | String c s' => if isWhiteSpace c then trimStart s' else s
  end.

Fixpoint trimEnd (s : string) : string :=
  match s with
  | EmptyString => EmptyString
  | String c s' =>
      match trimEnd s' with
      | EmptyString => if isWhiteSpace c then EmptyString else String c EmptyString
      | t => String c t
      end
  end.

(** [s.trim()] *)
Definition trim (s : string) : string := trimEnd (trimStart s).

(** [s.toLowerCase()] on Latin-1: A-Z and the letters U+00C0..U+00DE
    (all but the multiplication sign U+00D7) move up by 32. *)
Definition toLowerCase_char (c : ascii) : ascii :=
  let n := code c in
  if ((65 <=? n) && (n <=? 90)
      || (192 <=? n) && (n <=? 222) && negb (n =? 215))%N
  then ascii_of_N (n + 32) else c.

Fixpoint toLowerCase (s : string) : string :=
  match s with
  | EmptyString => EmptyString
  | String c s' => String (toLowerCase_char c) (toLowerCase s')
  end.

(** [s.split(sep)] for a one-character separator: never the empty array. *)
Fixpoint split (sep : ascii) (s : string) : list string :=
  match s with
  | EmptyString => [EmptyString]
  | String c s' =>
      if Ascii.eqb c sep then EmptyString :: split sep s'
      else match split sep s' with
           | [] => [String c EmptyString]
           | seg :: rest => String c seg :: rest
           end
  end.

(** [a.pop()]: the last element, [undefined] on the empty array. *)
Fixpoint pop {A} (a : list A) : option A :=
  match a with
  | [] => None
  | [x] => Some x
  | _ :: a' => pop a'
  end.

(** Does a string contain a character satisfying [p]? *)
Fixpoint some_char (p : ascii -> bool) (s : string) : bool :=
  match s with
  | EmptyString => false
  | String c s' => p c || some_char p s'
  end.

(** Do all characters of a string satisfy [p]? *)
Fixpoint every_char (p : ascii -> bool) (s : string) : bool :=
  match s with
  | EmptyString => true
  | String c s' => p c && every_char p s'
  end.

(** Membership of a character in a string. *)
Definition includes (s : string) (c : ascii) : bool :=
  some_char (Ascii.eqb c) s.

End Js.

(** ** src/utils/file.utils.ts *)

(** The nine characters of the class of [invalidChars]: less-than,
    greater-than, colon, the double quote (code 34), slash, backslash
    (written escaped in the class), bar, question mark and star. *)
Definition invalidChars_class : string :=
  "<>:" +:+ String (ascii_of_N 34) "/\|?*".

(** [invalidChars.test(fileName)] *)
Definition invalidChars_test (fileName : string) : bool :=
  Js.some_char (Js.includes invalidChars_class) fileName.

Definition validateFileName (fileName : string) : bool :=
  negb (invalidChars_test fileName)
  && (0 <? String.length (Js.trim fileName))%nat.

(** ** Values of unknown type *)

(** What the code can observe of a JavaScript value: its type tag, its
    truthiness, whether it is an [Error] instance, and its [message] and
    [code] properties ([None]: the property is absent). *)
Inductive JsValue :=
| JsUndefined
| JsNull
| JsBoolean (b : bool)
| JsNumber (n : Z)
| JsString (s : string)
| JsFunction (fname : string)
| JsObject (instanceofError : bool) (message : option string)
           (code : option JsValue).

Inductive JsType :=
| t_undefined | t_object | t_boolean | t_number | t_string | t_function.

Definition typeof (v : JsValue) : JsType :=
  match v with
  | JsUndefined => t_undefined
  | JsNull => t_object
  | JsBoolean _ => t_boolean
  | JsNumber _ => t_number
  | JsString _ => t_string
  | JsFunction _ => t_function
  | JsObject _ _ _ => t_object
  end.

(** [typeof v === t] *)
Definition JsType_eqb (a b : JsType) : bool :=
  match a, b with
  | t_undefined, t_undefined | t_object, t_object | t_boolean, t_boolean
  | t_number, t_number | t_string, t_string | t_function, t_function => true
  | _, _ => false
  end.

(** [ToBoolean] *)
Definition truthy (v : JsValue) : bool :=
  match v with
  | JsUndefined | JsNull => false
  | JsBoolean b => b
  | JsNumber n => negb (n =? 0)
  | JsString s => negb (String.eqb s EmptyString)
  | JsFunction _ | JsObject _ _ _ => true
  end.

(** [v instanceof Error] *)
Definition instanceof_Error (v : JsValue) : bool :=
  match v with
  | JsObject true _ _ => true
  | _ => false
  end.

(** [error.message] of an [Error] instance; [Error.prototype.message] is
    the empty string. *)
Definition Error_message (v : JsValue) : string :=
  match v with
  | JsObject _ (Some m) _ => m
  | _ => EmptyString
  end.

(** ['code' in error], for a value of type [object] *)
Definition has_code (v : JsValue) : bool :=
  match v with
  | JsObject _ _ (Some _) => true
  | _ => false
  end.

(** [error.code === n], the comparison a [switch] makes with [case n] *)
Definition code_is (n : Z) (v : JsValue) : bool :=
  match v with
  | JsObject _ _ (Some (JsNumber c)) => c =? n
  | _ => false
  end.

(** ** src/utils/file.utils.ts, continued *)

Definition Buffer := list Byte.byte.

(** A readable stream, as the chunks it will emit. *)
Record Readable := { chunks : list Buffer }.

(** [Readable.from(buffer)] emits the buffer as one chunk. *)
Definition bufferToStream (buffer : Buffer) : Readable :=
  {| chunks := [buffer] |}.

(** The own properties of the object literal [mimeTypes]. *)
Definition mimeTypes : gmap string string :=
  list_to_map
    [ ("jpg", "image/jpeg"); ("jpeg", "image/jpeg"); ("png", "image/png");
      ("gif", "image/gif"); ("webp", "image/webp");
      ("pdf", "application/pdf"); ("doc", "application/msword");
      ("docx", "application/vnd.openxmlformats-officedocument.wordprocessingml.document");
      ("xls", "application/vnd.ms-excel");
      ("xlsx", "application/vnd.openxmlformats-officedocument.spreadsheetml.sheet");
      ("ppt", "application/vnd.ms-powerpoint");
      ("pptx", "application/vnd.openxmlformats-officedocument.presentationml.presentation");
      ("txt", "text/plain"); ("csv", "text/csv");
      ("json", "application/json"); ("xml", "application/xml");
      ("zip", "application/zip"); ("rar", "application/x-rar-compressed");
      ("7z", "application/x-7z-compressed");
      ("mp4", "video/mp4"); ("avi", "video/x-msvideo");
      ("mov", "video/quicktime");
      ("mp3", "audio/mpeg"); ("wav", "audio/wav"); ("flac", "audio/flac") ].

(** [mimeTypes] is an object literal, so its prototype is
    [Object.prototype]: a property read that finds no own property goes on
    to the properties every object inherits.  [constructor] is the function
    [Object], [__proto__] is the prototype object itself, the others are
    methods. *)
Definition Object_prototype_methods : list string :=
  [ "__defineGetter__"; "__defineSetter__"; "hasOwnProperty";
    "__lookupGetter__"; "__lookupSetter__"; "isPrototypeOf";
    "propertyIsEnumerable"; "toString"; "valueOf"; "toLocaleString" ].

Definition Object_prototype_get (key : string) : JsValue :=
  if String.eqb key "constructor" then JsFunction "Object"
  else if String.eqb key "__proto__" then JsObject false None None
  else if existsb (String.eqb key) Object_prototype_methods
       then JsFunction key
  else JsUndefined.

(** [mimeTypes[extension]] *)
Definition mimeTypes_get (extension : string) : JsValue :=
  match mimeTypes !! extension with
  | Some v => JsString v
  | None => Object_prototype_get extension
  end.

Definition getMimeTypeFromExtension (fileName : string) : JsValue :=
  let extension := Js.toLowerCase <$> Js.pop (Js.split "." fileName) in
  match extension with
  | Some ext =>
      if negb (String.eqb ext EmptyString) then
        let v := mimeTypes_get ext in
        if truthy v then v else JsString "application/octet-stream"
      else JsString "application/octet-stream"
  | None => JsString "application/octet-stream"
  end.

(** *** formatFileSize *)

(** The decimal digit a character stands for. *)
Definition digit_of_char (c : ascii) : option (Decimal.uint -> Decimal.uint) :=
  let n := Js.code c in
  if (n =? 48)%N then Some Decimal.D0 else if (n =? 49)%N then Some Decimal.D1
  else if (n =? 50)%N then Some Decimal.D2 else if (n =? 51)%N then Some Decimal.D3
  else if (n =? 52)%N then Some Decimal.D4 else if (n =? 53)%N then Some Decimal.D5
  else if (n =? 54)%N then Some Decimal.D6 else if (n =? 55)%N then Some Decimal.D7
  else if (n =? 56)%N then Some Decimal.D8 else if (n =? 57)%N then Some Decimal.D9
  else None.

(** The longest prefix of decimal digits. *)
Fixpoint digits_prefix (s : string) : Decimal.uint :=
  match s with
  | EmptyString => Decimal.Nil
  | String c s' =>
      match digit_of_char c with
      | Some d => d (digits_prefix s')
      | None => Decimal.Nil
      end
  end.

(** [parseInt(s, 10)]: leading white space is skipped, one sign is read,
    then the longest run of digits; [None] is [NaN] (no digit read). *)
Definition parseInt10 (s : string) : option Z :=
  let s1 := Js.trimStart s in
  let '(sign, s2) :=
    match s1 with
    | String c r =>
        if (Js.code c =? 45)%N then (-1, r)
        else if (Js.code c =? 43)%N then (1, r)
        else (1, s1)
    | EmptyString => (1, s1)
    end in
  match digits_prefix s2 with
  | Decimal.Nil => None
  | d => Some (sign * Z.of_N (N.of_uint d))
  end.

Fixpoint string_of_uint (d : Decimal.uint) : string :=
  match d with
  | Decimal.Nil => EmptyString
  | Decimal.D0 d => String "0" (string_of_uint d)
  | Decimal.D1 d => String "1" (string_of_uint d)
  | Decimal.D2 d => String "2" (string_of_uint d)
  | Decimal.D3 d => String "3" (string_of_uint d)
  | Decimal.D4 d => String "4" (string_of_uint d)
  | Decimal.D5 d => String "5" (string_of_uint d)
  | Decimal.D6 d => String "6" (string_of_uint d)
  | Decimal.D7 d => String "7" (string_of_uint d)
  | Decimal.D8 d => String "8" (string_of_uint d)
  | Decimal.D9 d => String "9" (string_of_uint d)
  end.

(** [String(n)] for an integer [n] *)
Definition Number_toString (n : Z) : string :=
  if n <? 0 then String "-" (string_of_uint (N.to_uint (Z.abs_N n)))
  else string_of_uint (N.to_uint (Z.to_N n)).

(** [bytes: string | number] *)
Inductive StringOrNumber :=
| OfString (s : string)
| OfNumber (n : Z).

Definition k : Z := 1024.
Definition sizes : list string := ["Bytes"; "KB"; "MB"; "GB"; "TB"].

(** [Math.floor(Math.log(size) / Math.log(k))] for [size >= 1], at its
    mathematical value: the integer [i] with [k^i <= size < k^(i+1)].  The
    binary logarithm of 1024 is 10.  (The double-precision quotient is
    within a few units in the last place of the real one, so the two floors
    agree except for the few counts just below 1024^5 = 2^50, where the
    double quotient already rounds to 5.  The statements below that speak of
    all counts of a range stop at 1023 * 1024^4 or start at 1024^5.) *)
Definition floor_log_k (size : Z) : Z := Z.log2 size / Z.log2 k.

(** [parseFloat((num / den).toFixed(2))] for [num >= 0] and a power of two
    [den]: [toFixed(2)] picks the integer [n] for which [n / 100] is nearest
    to the quotient, the larger one on a tie; the result is kept as that
    number [n] of hundredths. *)
Definition toFixed2_hundredths (num den : Z) : Z :=
  (2 * 100 * num + den) / (2 * den).

(** The fraction of a number of hundredths as [String] prints it: nothing
    when it is zero, else a dot and one or two digits, no trailing zero. *)
Definition fraction_text (fp : Z) : string :=
  if fp =? 0 then EmptyString
  else "." +:+ Number_toString (fp / 10)
       +:+ (if fp mod 10 =? 0 then EmptyString
            else Number_toString (fp mod 10)).

(** [String(x)] for [x] a non-negative number of hundredths: the integer
    part, then the fraction. *)
Definition hundredths_toString (n : Z) : string :=
  Number_toString (n / 100) +:+ fraction_text (n mod 100).

(** [sizes[i]] spliced into a string: [undefined] out of range *)
Definition sizes_at (i : Z) : string :=
  if i <? 0 then "undefined"
  else default "undefined" (sizes !! Z.to_nat i).

Definition formatFileSize (bytes : StringOrNumber) : string :=
  let size :=
    match bytes with
    | OfString s => parseInt10 s
    | OfNumber n => Some n
    end in
  match size with
  | Some size =>
      if size =? 0 then "0 Bytes"
      else if size <? 0 then
        (* Math.log of a negative number is NaN, and so is all that follows *)
        "NaN undefined"
      else
        let i := floor_log_k size in
        hundredths_toString (toFixed2_hundredths size (k ^ i))
        +:+ " " +:+ sizes_at i
  | None => "NaN undefined"
  end.
(** ** src/constants/index.ts *)

Definition DRIVE_API_VERSION : string := "v3".
Definition DEFAULT_FILE_FIELDS : string :=
  "id,name,mimeType,size,parents,createdTime,modifiedTime".

(** ** src/errors/google-drive.error.ts *)

Inductive ErrorClass :=
| GoogleDriveError
| FileUploadError
| FileDownloadError
| AuthenticationError
| ConfigurationError.

(** An instance of [GoogleDriveError] or of one of its subclasses: the
    class it was built by and the fields the constructors set. *)
Module Err.
Record t := {
  class : ErrorClass;
  name : string;
  message : string;
  code : option string;
  statusCode : option Z;
  cause : option JsValue;
  fileName : option string;
  fileId : option string
}.
End Err.

Definition new_FileUploadError
    (message : string) (fileName : option string) (cause : option JsValue)
  : Err.t :=
  {| Err.class := FileUploadError;
     Err.name := "FileUploadError";
     Err.message := "File upload failed: " +:+ message;
     Err.code := Some "FILE_UPLOAD_ERROR";
     Err.statusCode := None;
     Err.cause := cause;
     Err.fileName := fileName;
     Err.fileId := None |}.

Definition new_FileDownloadError
    (message : string) (fileId : option string) (cause : option JsValue)
  : Err.t :=
  {| Err.class := FileDownloadError;
     Err.name := "FileDownloadError";
     Err.message := "File download failed: " +:+ message;
     Err.code := Some "FILE_DOWNLOAD_ERROR";
     Err.statusCode := None;
     Err.cause := cause;
     Err.fileName := None;
     Err.fileId := fileId |}.

Definition new_AuthenticationError
    (message : string) (cause : option JsValue) : Err.t :=
  {| Err.class := AuthenticationError;
     Err.name := "AuthenticationError";
     Err.message := "Authentication failed: " +:+ message;
     Err.code := Some "AUTHENTICATION_ERROR";
     Err.statusCode := Some 401;
     Err.cause := cause;
     Err.fileName := None;
     Err.fileId := None |}.

Definition new_ConfigurationError (message : string) : Err.t :=
  {| Err.class := ConfigurationError;
     Err.name := "ConfigurationError";
     Err.message := "Configuration error: " +:+ message;
     Err.code := Some "CONFIGURATION_ERROR";
     Err.statusCode := Some 500;
     Err.cause := None;
     Err.fileName := None;
     Err.fileId := None |}.

(** [error instanceof Error ? error : undefined] *)
Definition Error_or_undefined (error : JsValue) : option JsValue :=
  if instanceof_Error error then Some error else None.

(** [error instanceof Error ? error.message : fallback] *)
Definition message_or (fallback : string) (error : JsValue) : string :=
  if instanceof_Error error then Error_message error else fallback.

(** ** src/interfaces/google-drive.interface.ts *)

Module ModuleOptions.
Record t := {
  clientId : string;
  clientSecret : string;
  redirectUri : string;
  refreshToken : option string;
  accessToken : option string;
  scope : option (list string)
}.
End ModuleOptions.

Module UploadFileOptions.
Record t := {
  name : string;
  parents : option (list string);
  mimeType : option string
}.
End UploadFileOptions.

Module UserCredentials.
Record t := {
  accessToken : string;
  refreshToken : option string;
  expiresAt : option Z
}.
End UserCredentials.

Record UserDriveOptions := { credentials : UserCredentials.t }.

(** The file resource of a remote response; at run time any field may be
    missing. *)
Module FileMetadata.
Record t := {
  id : option string;
  name : option string;
  mimeType : option string;
  size : option string;
  parents : option (list string);
  createdTime : option string;
  modifiedTime : option string
}.
End FileMetadata.

(** [response.data] *)
Inductive ResponseData :=
| FileData (f : FileMetadata.t)
| StreamData (r : Readable)
| OtherData (v : JsValue).

(** [response.data.id] *)
Definition data_id (d : ResponseData) : option string :=
  match d with
  | FileData f => FileMetadata.id f
  | _ => None
  end.

(** [{ ...response.data, downloadUrl }] *)
Record UploadResult := {
  metadata : ResponseData;
  downloadUrl : string
}.

(** ** The client library: OAuth2 clients, handles and remote calls *)

(** The credentials object of an OAuth2 client. *)
Record Credentials := {
  refresh_token : option string;
  access_token : option string
}.

(** An OAuth2 client is a mutable object: [setCredentials] writes it. *)
Record OAuth2Client := {
  client_id : string;
  client_secret : string;
  redirect_uri : string;
  client_credentials : Credentials
}.

(** Objects live in a store, addressed by location. *)
Definition loc := positive.

(** A client handle [google.drive({ version, auth })] refers to its OAuth2
    client. *)
Record Drive := { version : string; auth : loc }.

Record RequestBody := {
  body_name : string;
  body_parents : option (list string)
}.

Record Media := {
  media_mimeType : JsValue;
  media_body : Readable
}.

(** The three remote operations, with the parameters the service passes. *)
Inductive RemoteCall :=
| files_create (requestBody : RequestBody) (media : Media) (fields : string)
| files_get (fileId : string) (alt : option string) (fields : option string)
            (responseType : option string)
| about_get (fields : string).

(** A remote call as the remote side sees it: the handle it came through,
    the state of that handle's OAuth2 client at the time, the request. *)
Record Invocation := {
  via : Drive;
  client : option OAuth2Client;
  request : RemoteCall
}.

(** The promise a remote call returns settles one way or the other. *)
Inductive Outcome :=
| Resolved (data : ResponseData)
| Rejected (error : JsValue).

(** ** src/services/google-drive.service.ts *)

(** The fields of the service object. *)
Record GoogleDriveService := {
  options : ModuleOptions.t;
  drive : Drive
}.

(** The state the operations run in: the service object, the store of
    OAuth2 clients, and the remote calls made so far, oldest first. *)
Record State := {
  this : GoogleDriveService;
  heap : gmap loc OAuth2Client;
  calls : list Invocation
}.

(** How an operation completes: a value, or a thrown error (for an [async]
    method, the rejection of the promise it returns). *)
Inductive Completion (A : Type) :=
| Return (a : A)
| Throw (e : Err.t).
Arguments Return {A} a.
Arguments Throw {A} e.

Definition M (A : Type) : Type := State -> Completion A * State.

Definition ret {A} (a : A) : M A := fun st => (Return a, st).

Definition throw {A} (e : Err.t) : M A := fun st => (Throw e, st).

Definition bind {A B} (m : M A) (f : A -> M B) : M B :=
  fun st =>
    match m st with
    | (Return a, st') => f a st'
    | (Throw e, st') => (Throw e, st')
    end.

Notation "x <- m ;; f" := (bind m (fun x => f))
  (at level 100, m at next level, right associativity).

(** [this] *)
Definition get_this : M GoogleDriveService :=
  fun st => (Return (this st), st).

(** [new google.auth.OAuth2(clientId, clientSecret, redirectUri)]: a new
    object at a location not in use, with empty credentials. *)
Definition OAuth2_new (clientId clientSecret redirectUri : string)
    (h : gmap loc OAuth2Client) : loc * gmap loc OAuth2Client :=
  let l := fresh (dom h) in
  (l, <[ l := {| client_id := clientId;
                 client_secret := clientSecret;
                 redirect_uri := redirectUri;
                 client_credentials :=
                   {| refresh_token := None; access_token := None |} |} ]> h).

(** [auth.setCredentials(credentials)] writes the object at [auth]. *)
Definition OAuth2_setCredentials (auth : loc) (c : Credentials)
    (h : gmap loc OAuth2Client) : gmap loc OAuth2Client :=
  alter (fun o => {| client_id := client_id o;
                     client_secret := client_secret o;
                     redirect_uri := redirect_uri o;
                     client_credentials := c |}) auth h.

(** [google.drive({ version, auth })] *)
Definition google_drive (version : string) (auth : loc) : Drive :=
  {| version := version; auth := auth |}.

(** The two store operations, as steps of an operation. *)
Definition new_OAuth2 (clientId clientSecret redirectUri : string) : M loc :=
  fun st =>
    let '(l, h) := OAuth2_new clientId clientSecret redirectUri (heap st) in
    (Return l, {| this := this st; heap := h; calls := calls st |}).

Definition setCredentials (auth : loc) (c : Credentials) : M unit :=
  fun st =>
    (Return tt,
     {| this := this st;
        heap := OAuth2_setCredentials auth c (heap st);
        calls := calls st |}).

(** A string option that is present and not empty. *)
Definition truthy_string (s : option string) : bool :=
  match s with
  | Some s => negb (String.eqb s EmptyString)
  | None => false
  end.

(** [!fileId || fileId.trim().length === 0] *)
Definition fileId_missing (fileId : string) : bool :=
  String.eqb fileId EmptyString
  || (String.length (Js.trim fileId) =? 0)%nat.

Section Service.

(** The remote side: how the promise of each remote call settles. *)
Variable remote : Invocation -> Outcome.

(** [await d.<call>]: the call is recorded and its promise settles. *)
Definition await (d : Drive) (req : RemoteCall) : M Outcome :=
  fun st =>
    let inv := {| via := d; client := heap st !! auth d; request := req |} in
    (Return (remote inv),
     {| this := this st; heap := heap st; calls := calls st ++ [inv] |}).

(** The MIME type of an upload: [options.mimeType ||
    getMimeTypeFromExtension(options.name)] *)
Definition upload_mimeType (opts : UploadFileOptions.t) : JsValue :=
  if truthy_string (UploadFileOptions.mimeType opts)
  then match UploadFileOptions.mimeType opts with
       | Some m => JsString m
       | None => JsUndefined
       end
  else getMimeTypeFromExtension (UploadFileOptions.name opts).

(** [`https://drive.google.com/file/d/${response.data.id}/view`] *)
Definition viewer_url (data : ResponseData) : string :=
  "https://drive.google.com/file/d/"
  +:+ default "undefined" (data_id data) +:+ "/view".

(** The part of an upload that follows the creation of the handle; the
    two upload methods share it word for word, the texts of their log lines
    apart. *)
Definition upload_via (d : Drive) (fileStream : Readable + Buffer)
    (opts : UploadFileOptions.t) : M UploadResult :=
  let stream :=
    match fileStream with
    | inr buffer => bufferToStream buffer
    | inl s => s
    end in
  let mimeType := upload_mimeType opts in
  let media := {| media_mimeType := mimeType; media_body := stream |} in
  let fileMetadata :=
    {| body_name := UploadFileOptions.name opts;
       body_parents := UploadFileOptions.parents opts |} in
  response <- await d (files_create fileMetadata media DEFAULT_FILE_FIELDS) ;;
  match response with
  | Resolved data =>
      ret {| metadata := data; downloadUrl := viewer_url data |}
  | Rejected error =>
      let message := message_or "Unknown upload error" error in
      throw (new_FileUploadError message
               (Some (UploadFileOptions.name opts))
               (Error_or_undefined error))
  end.

Definition uploadFile (fileStream : Readable + Buffer)
    (opts : UploadFileOptions.t) : M UploadResult :=
  if negb (validateFileName (UploadFileOptions.name opts)) then
    throw (new_FileUploadError "Invalid file name"
             (Some (UploadFileOptions.name opts)) None)
  else
    self <- get_this ;;
    upload_via (drive self) fileStream opts.

(** The [catch] block of the two download methods; they differ in the
    texts for the codes 404 and 403. *)
Definition download_catch (notFound denied : string) (fileId : string)
    (error : JsValue) : Err.t :=
  let message := message_or "Unknown download error" error in
  if truthy error && JsType_eqb (typeof error) t_object
     && has_code error
  then
    if code_is 404 error then
      new_FileDownloadError notFound (Some fileId)
        (Error_or_undefined error)
    else if code_is 403 error then
      new_AuthenticationError denied (Error_or_undefined error)
    else
      new_FileDownloadError message (Some fileId)
        (Error_or_undefined error)
  else
    new_FileDownloadError message (Some fileId) (Error_or_undefined error).

Definition download_via (d : Drive) (notFound denied : string)
    (fileId : string) : M ResponseData :=
  response <- await d (files_get fileId (Some "media") None (Some "stream")) ;;
  match response with
  | Resolved data => ret data
  | Rejected error => throw (download_catch notFound denied fileId error)
  end.

Definition downloadFile (fileId : string) : M ResponseData :=
  if fileId_missing fileId then
    throw (new_FileDownloadError "File ID is required" (Some fileId) None)
  else
    self <- get_this ;;
    download_via (drive self) "File not found" "Access denied" fileId.

Definition metadata_via (d : Drive) (fileId : string) : M ResponseData :=
  response <- await d (files_get fileId None (Some DEFAULT_FILE_FIELDS) None) ;;
  match response with
  | Resolved data => ret data
  | Rejected error =>
      let message := message_or "Unknown error" error in
      throw (new_FileDownloadError message (Some fileId)
               (Error_or_undefined error))
  end.

Definition getFileMetadata (fileId : string) : M ResponseData :=
  if fileId_missing fileId then
    throw (new_FileDownloadError "File ID is required" (Some fileId) None)
  else
    self <- get_this ;;
    metadata_via (drive self) fileId.

Definition connection_via (d : Drive) : M bool :=
  response <- await d (about_get "user") ;;
  match response with
  | Resolved _ => ret true
  | Rejected _ => ret false
  end.

Definition testConnection : M bool :=
  self <- get_this ;;
  connection_via (drive self).

(** *** The per-user methods *)

Definition createUserDriveInstance (c : UserCredentials.t) : M Drive :=
  self <- get_this ;;
  auth <- new_OAuth2 (ModuleOptions.clientId (options self))
                     (ModuleOptions.clientSecret (options self))
                     (ModuleOptions.redirectUri (options self)) ;;
  _ <- setCredentials auth
         {| access_token := Some (UserCredentials.accessToken c);
            refresh_token := UserCredentials.refreshToken c |} ;;
  ret (google_drive DRIVE_API_VERSION auth).

Definition uploadFileToUserDrive (fileStream : Readable + Buffer)
    (opts : UploadFileOptions.t) (userOptions : UserDriveOptions)
  : M UploadResult :=
  if negb (validateFileName (UploadFileOptions.name opts)) then
    throw (new_FileUploadError "Invalid file name"
             (Some (UploadFileOptions.name opts)) None)
  else
    userDrive <- createUserDriveInstance (credentials userOptions) ;;
    upload_via userDrive fileStream opts.

Definition downloadFileFromUserDrive (fileId : string)
    (userOptions : UserDriveOptions) : M ResponseData :=
  if fileId_missing fileId then
    throw (new_FileDownloadError "File ID is required" (Some fileId) None)
  else
    userDrive <- createUserDriveInstance (credentials userOptions) ;;
    download_via userDrive "File not found in user drive"
      "Access denied to user drive" fileId.

Definition getFileMetadataFromUserDrive (fileId : string)
    (userOptions : UserDriveOptions) : M ResponseData :=
  if fileId_missing fileId then
    throw (new_FileDownloadError "File ID is required" (Some fileId) None)
  else
    userDrive <- createUserDriveInstance (credentials userOptions) ;;
    metadata_via userDrive fileId.

Definition testUserDriveConnection (userOptions : UserDriveOptions)
  : M bool :=
  userDrive <- createUserDriveInstance (credentials userOptions) ;;
  connection_via userDrive.

End Service.

(** The body of [initializeDrive] on the path where the client library
    does not throw (its constructors are total here, so the [catch] that
    raises [ConfigurationError] is not reached): the handle to be stored in
    [this.drive], and the store with the new OAuth2 client. *)
Definition initializeDrive (opts : ModuleOptions.t)
    (h : gmap loc OAuth2Client) : Drive * gmap loc OAuth2Client :=
  let '(auth, h1) :=
    OAuth2_new (ModuleOptions.clientId opts)
               (ModuleOptions.clientSecret opts)
               (ModuleOptions.redirectUri opts) h in
  let h2 :=
    if truthy_string (ModuleOptions.refreshToken opts)
    then OAuth2_setCredentials auth
           {| refresh_token := ModuleOptions.refreshToken opts;
              access_token := ModuleOptions.accessToken opts |} h1
    else h1 in
  (google_drive DRIVE_API_VERSION auth, h2).

(** [new GoogleDriveService(options)]: the constructor stores the options
    and runs [initializeDrive]; the store and the record of calls are those
    of the surrounding program. *)
Definition new_GoogleDriveService (opts : ModuleOptions.t)
    (heap0 : gmap loc OAuth2Client) (calls0 : list Invocation) : State :=
  let '(d, h) := initializeDrive opts heap0 in
  {| this := {| options := opts; drive := d |}; heap := h; calls := calls0 |}.
(** ** Vocabulary of the statements *)

(** A name contains one of the nine forbidden characters. *)
Definition has_forbidden_char (fileName : string) : Prop :=
  exists c, In c (list_ascii_of_string fileName)
            /\ In c (list_ascii_of_string invalidChars_class).

(** A name made of white space only (the empty name included). *)
Definition all_whitespace (fileName : string) : Prop :=
  forall c, In c (list_ascii_of_string fileName) -> Js.isWhiteSpace c = true.

(** The extension [getMimeTypeFromExtension] computes for a name. *)
Definition extension_of (fileName : string) : option string :=
  Js.toLowerCase <$> Js.pop (Js.split "." fileName).

(** Text that does not go on with a decimal digit. *)
Definition no_leading_digit (rest : string) : Prop :=
  match rest with
  | EmptyString => True
  | String c _ => digit_of_char c = None
  end.

(** A rejection reason that is an object whose [code] is the number [n]. *)
Definition carries_code (n : Z) (error : JsValue) : Prop :=
  exists isError message,
    error = JsObject isError message (Some (JsNumber n)).

(** The remote calls the module-wide methods make in state [st]. *)
Definition through_service (st : State) (req : RemoteCall) : Invocation :=
  {| via := drive (this st);
     client := heap st !! auth (drive (this st));
     request := req |}.

Definition create_request (content : Readable + Buffer)
    (opts : UploadFileOptions.t) (mimeType : JsValue) : RemoteCall :=
  files_create
    {| body_name := UploadFileOptions.name opts;
       body_parents := UploadFileOptions.parents opts |}
    {| media_mimeType := mimeType;
       media_body := match content with
                     | inr buffer => bufferToStream buffer
                     | inl s => s
                     end |}
    DEFAULT_FILE_FIELDS.

Definition download_request (fileId : string) : RemoteCall :=
  files_get fileId (Some "media") None (Some "stream").

Definition metadata_request (fileId : string) : RemoteCall :=
  files_get fileId None (Some DEFAULT_FILE_FIELDS) None.


(** The OAuth2 client a per-user call builds from the module options and
    the caller's credentials. *)
Definition user_client (opts : ModuleOptions.t) (c : UserCredentials.t)
  : OAuth2Client :=
  {| client_id := ModuleOptions.clientId opts;
     client_secret := ModuleOptions.clientSecret opts;
     redirect_uri := ModuleOptions.redirectUri opts;
     client_credentials :=
       {| refresh_token := UserCredentials.refreshToken c;
          access_token := Some (UserCredentials.accessToken c) |} |}.

(** A call of one of the four per-user methods. *)
Inductive UserCall :=
| UploadToUserDrive (content : Readable + Buffer)
    (opts : UploadFileOptions.t) (userOptions : UserDriveOptions)
| DownloadFromUserDrive (fileId : string) (userOptions : UserDriveOptions)
| MetadataFromUserDrive (fileId : string) (userOptions : UserDriveOptions)
| TestUserDrive (userOptions : UserDriveOptions).

Definition caller_credentials (c : UserCall) : UserCredentials.t :=
  match c with
  | UploadToUserDrive _ _ u | DownloadFromUserDrive _ u
  | MetadataFromUserDrive _ u | TestUserDrive u => credentials u
  end.

(** The state a per-user call leaves. *)
Definition state_after (remote : Invocation -> Outcome) (c : UserCall)
    (st : State) : State :=
  match c with
  | UploadToUserDrive content opts u =>
      snd (uploadFileToUserDrive remote content opts u st)
  | DownloadFromUserDrive fileId u =>
      snd (downloadFileFromUserDrive remote fileId u st)
  | MetadataFromUserDrive fileId u =>
      snd (getFileMetadataFromUserDrive remote fileId u st)
  | TestUserDrive u => snd (testUserDriveConnection remote u st)
  end.

(** The state holds the OAuth2 client of the service's own handle. *)
Definition initialized (st : State) : Prop :=
  is_Some (heap st !! auth (drive (this st))).

(** ** Worked examples: the service of the test suite *)

Definition example_options : ModuleOptions.t :=
  {| ModuleOptions.clientId := "test-client-id";
     ModuleOptions.clientSecret := "test-client-secret";
     ModuleOptions.redirectUri := "http://localhost:3000/callback";
     ModuleOptions.refreshToken := Some "test-refresh-token";
     ModuleOptions.accessToken := None;
     ModuleOptions.scope := None |}.

Definition example_state : State :=
  new_GoogleDriveService example_options ∅ [].

Definition example_user : UserDriveOptions :=
  {| credentials :=
       {| UserCredentials.accessToken := "user-access-token";
          UserCredentials.refreshToken := None;
          UserCredentials.expiresAt := None |} |}.

(** A remote side that rejects every call with [error]. *)
Definition rejecting (error : JsValue) : Invocation -> Outcome :=
  fun _ => Rejected error.

(** A remote side that resolves every call with [data]. *)
Definition resolving (data : ResponseData) : Invocation -> Outcome :=
  fun _ => Resolved data.

(** The rejection values of the test suite, plain objects with a code. *)
Definition plain_404 : JsValue :=
  JsObject false (Some "File not found") (Some (JsNumber 404)).
Definition plain_403 : JsValue :=
  JsObject false (Some "Access denied") (Some (JsNumber 403)).

(** [Error] instances as the client library raises them. *)
Definition error_404 : JsValue :=
  JsObject true (Some "File not found: abc") (Some (JsNumber 404)).
Definition error_403 : JsValue :=
  JsObject true (Some "The user does not have sufficient permissions")
           (Some (JsNumber 403)).
Definition error_500 : JsValue :=
  JsObject true (Some "Backend Error") (Some (JsNumber 500)).

Definition file_with_id (i : string) : ResponseData :=
  FileData {| FileMetadata.id := Some i;
              FileMetadata.name := Some "report.pdf";
              FileMetadata.mimeType := Some "application/pdf";
              FileMetadata.size := Some "1024";
              FileMetadata.parents := None;
              FileMetadata.createdTime := Some "2023-01-01T00:00:00.000Z";
              FileMetadata.modifiedTime := Some "2023-01-01T00:00:00.000Z" |}.

Definition report_pdf : UploadFileOptions.t :=
  {| UploadFileOptions.name := "report.pdf";
     UploadFileOptions.parents := None;
     UploadFileOptions.mimeType := None |}.

(** A call of one of the four module-wide methods. *)
Inductive ModuleCall :=
| UploadCall (content : Readable + Buffer) (opts : UploadFileOptions.t)
| DownloadCall (fileId : string)
| MetadataCall (fileId : string)
| TestCall.

(** The state a module-wide call leaves. *)
Definition state_after_module (remote : Invocation -> Outcome)
    (c : ModuleCall) (st : State) : State :=
  match c with
  | UploadCall content opts => snd (uploadFile remote content opts st)
  | DownloadCall fileId => snd (downloadFile remote fileId st)
  | MetadataCall fileId => snd (getFileMetadata remote fileId st)
  | TestCall => snd (testConnection remote st)
  end.

(** A call of any public method, and a run of several in a row. *)
Inductive ServiceCall :=
| OnModule (c : ModuleCall)
| OnUser (c : UserCall).

Definition step (remote : Invocation -> Outcome) (st : State)
    (c : ServiceCall) : State :=
  match c with
  | OnModule c => state_after_module remote c st
  | OnUser c => state_after remote c st
  end.

Definition run (remote : Invocation -> Outcome) (cs : list ServiceCall)
    (st : State) : State :=
  fold_left (step remote) cs st.

(** A remote side that answers a request the same through any handle. *)
Definition handle_blind (remote : Invocation -> Outcome) : Prop :=
  forall inv inv', request inv = request inv' -> remote inv = remote inv'.

(** The handle a per-user call builds in state [st], and the remote call
    made through it. *)
Definition user_handle (st : State) : Drive :=
  google_drive DRIVE_API_VERSION (fresh (dom (heap st))).

Definition through_user (st : State) (u : UserDriveOptions)
    (req : RemoteCall) : Invocation :=
  {| via := user_handle st;
     client := Some (user_client (options (this st)) (credentials u));
     request := req |}.

(** A remote side that answers by the request alone: it rejects downloads
    with [error] and resolves everything else with [data]. *)
Definition failing_downloads (error : JsValue) (data : ResponseData)
  : Invocation -> Outcome :=
  fun inv =>
    match request inv with
    | files_get _ (Some _) _ _ => Rejected error
    | _ => Resolved data
    end.

(** ** Properties of the string primitives *)

Lemma trimEnd_empty_iff (s : string) :
  Js.trimEnd s = EmptyString <-> Js.every_char Js.isWhiteSpace s = true.
Proof.
  induction s as [|c s IH]; simpl.
  - tauto.
  - destruct (Js.trimEnd s) eqn:E.
    + destruct (Js.isWhiteSpace c); simpl.
      * rewrite <- IH. tauto.
      * split; intro H; discriminate H.
    + split; intro H; [discriminate H|].
      apply andb_true_iff in H as [_ H]. apply IH in H. discriminate H.
Qed.

Lemma trimStart_all_ws (s : string) :
  Js.every_char Js.isWhiteSpace s = true -> Js.trimStart s = EmptyString.
Proof.
  induction s as [|c s IH]; simpl; [reflexivity|].
  intros [Hc Hs]%andb_true_iff. rewrite Hc. auto.
Qed.

Lemma trimStart_every (s : string) :
  Js.every_char Js.isWhiteSpace (Js.trimStart s) = true ->
  Js.every_char Js.isWhiteSpace s = true.
Proof.
  induction s as [|c s IH]; simpl; [reflexivity|].
  destruct (Js.isWhiteSpace c) eqn:Hc; simpl.
  - exact IH.
  - rewrite Hc. simpl. intro H; discriminate H.
Qed.

(** [trim] leaves nothing exactly when every character is white space. *)
Lemma trim_empty_iff (s : string) :
  Js.trim s = EmptyString <-> Js.every_char Js.isWhiteSpace s = true.
Proof.
  unfold Js.trim. rewrite trimEnd_empty_iff. split.
  - apply trimStart_every.
  - intro H. rewrite (trimStart_all_ws s H). reflexivity.
Qed.

Lemma length_zero_iff_empty (s : string) :
  String.length s = 0%nat <-> s = EmptyString.
Proof. destruct s; simpl; split; intro H; try reflexivity; discriminate H. Qed.

Lemma some_char_exists (p : ascii -> bool) (s : string) :
  Js.some_char p s = true <->
  exists c, In c (list_ascii_of_string s) /\ p c = true.
Proof.
  induction s as [|a s IH]; simpl.
  - split; [intro H; discriminate H | intros [c [[] _]]].
  - rewrite orb_true_iff, IH. split.
    + intros [H | [c [Hin Hc]]]; [exists a | exists c]; auto.
    + intros [c [[-> | Hin] Hc]]; [left | right; exists c]; auto.
Qed.

Lemma includes_In (s : string) (c : ascii) :
  Js.includes s c = true <-> In c (list_ascii_of_string s).
Proof.
  unfold Js.includes. rewrite some_char_exists. split.
  - intros [d [Hin Hd]]. apply Ascii.eqb_eq in Hd. subst d. exact Hin.
  - intro Hin. exists c. split; [exact Hin | apply Ascii.eqb_refl].
Qed.

(** ** validateFileName *)

Lemma every_char_forall (p : ascii -> bool) (s : string) :
  Js.every_char p s = true <->
  forall c, In c (list_ascii_of_string s) -> p c = true.
Proof.
  induction s as [|a s IH]; simpl.
  - split; [intros _ c [] | reflexivity].
  - rewrite andb_true_iff, IH. split.
    + intros [Ha Hs] c [<- | Hin]; auto.
    + intro H. split; [apply H; auto | intros c Hin; apply H; auto].
Qed.

Lemma invalidChars_test_spec (fileName : string) :
  invalidChars_test fileName = true <-> has_forbidden_char fileName.
Proof.
  unfold invalidChars_test, has_forbidden_char.
  rewrite some_char_exists. split; intros [c [Hin Hc]]; exists c; split;
    try exact Hin; apply includes_In; exact Hc.
Qed.

Lemma trim_length_pos (fileName : string) :
  (0 <? String.length (Js.trim fileName))%nat = false <->
  all_whitespace fileName.
Proof.
  unfold all_whitespace. rewrite <- every_char_forall, <- trim_empty_iff.
  rewrite <- length_zero_iff_empty, Nat.ltb_ge. lia.
Qed.

(** C5. [validateFileName] returns false exactly for the names that contain
    one of the nine characters of [invalidChars_class], or are empty, or are all white
    space; for every other name it returns true. *)
Theorem validateFileName_spec (fileName : string) :
  (has_forbidden_char fileName \/ fileName = EmptyString
   \/ all_whitespace fileName ->
   validateFileName fileName = false)
  /\ (~ (has_forbidden_char fileName \/ fileName = EmptyString
         \/ all_whitespace fileName) ->
      validateFileName fileName = true
      /\ Js.trim fileName <> EmptyString).
Proof.
  unfold validateFileName. split.
  - intros [H | [H | H]].
    + apply invalidChars_test_spec in H. rewrite H. reflexivity.
    + subst fileName. reflexivity.
    + apply trim_length_pos in H. rewrite H. apply andb_false_r.
  - intro H.
    assert (Hc : invalidChars_test fileName = false).
    { destruct (invalidChars_test fileName) eqn:E; [|reflexivity].
      exfalso. apply H. left. apply invalidChars_test_spec. exact E. }
    assert (Hl : (0 <? String.length (Js.trim fileName))%nat = true).
    { destruct (0 <? String.length (Js.trim fileName))%nat eqn:E;
        [reflexivity|].
      exfalso. apply H. right. right. apply trim_length_pos. exact E. }
    rewrite Hc, Hl. split; [reflexivity|].
    intro E. rewrite E in Hl. discriminate Hl.
Qed.

(** The theorem on two names of the test suite. *)
Lemma validateFileName_spec_witness :
  validateFileName "file<name>.txt" = false
  /\ validateFileName "document.pdf" = true.
Proof.
  split.
  - apply (proj1 (validateFileName_spec "file<name>.txt")). left.
    apply invalidChars_test_spec. reflexivity.
  - apply (proj2 (validateFileName_spec "document.pdf")).
    intros [H | [H | H]].
    + apply invalidChars_test_spec in H. discriminate H.
    + discriminate H.
    + specialize (H "d"%char (or_introl eq_refl)). discriminate H.
Defined.

(** ** getMimeTypeFromExtension *)

(** The dot-separated last segment of a name, in lower case: what the code
    calls the extension. *)
Lemma split_nonempty (sep : ascii) (s : string) : Js.split sep s <> [].
Proof.
  induction s as [|c s IH]; simpl; [discriminate|].
  destruct (Ascii.eqb c sep); [discriminate|].
  destruct (Js.split sep s); [contradiction | discriminate].
Qed.

Lemma pop_is_Some {A} (a : list A) : a <> [] -> is_Some (Js.pop a).
Proof.
  induction a as [|x a IH]; [contradiction|]. intros _. simpl.
  destruct a as [|y a]; [eauto|]. apply IH. discriminate.
Qed.

Lemma mimeTypes_entries_truthy (key v : string) :
  mimeTypes !! key = Some v -> key <> EmptyString /\ v <> EmptyString.
Proof.
  unfold mimeTypes. intros H%elem_of_list_to_map_2.
  repeat (apply elem_of_cons in H as [H | H];
          [injection H as -> ->; split; discriminate|]).
  apply elem_of_nil in H. contradiction.
Qed.

Lemma eqb_empty_false (s : string) :
  s <> EmptyString -> String.eqb s EmptyString = false.
Proof. intro H. apply String.eqb_neq. exact H. Qed.

(** A known extension, in any case, yields the value of the table. *)
Lemma getMimeTypeFromExtension_known (fileName ext v : string) :
  Js.pop (Js.split "." fileName) = Some ext ->
  mimeTypes !! Js.toLowerCase ext = Some v ->
  getMimeTypeFromExtension fileName = JsString v.
Proof.
  intros Hext Hv. unfold getMimeTypeFromExtension. rewrite Hext.
  cbn [fmap option_fmap option_map].
  destruct (mimeTypes_entries_truthy _ _ Hv) as [Hk Hne].
  rewrite (eqb_empty_false _ Hk). cbn [negb].
  unfold mimeTypes_get. rewrite Hv. cbn [truthy].
  rewrite (eqb_empty_false _ Hne). reflexivity.
Qed.

(** An extension that is neither a key of the table nor the name of an
    inherited property yields the generic binary type, and so does an empty
    last segment. *)
Lemma getMimeTypeFromExtension_unknown (fileName ext : string) :
  Js.pop (Js.split "." fileName) = Some ext ->
  mimeTypes !! Js.toLowerCase ext = None ->
  Object_prototype_get (Js.toLowerCase ext) = JsUndefined ->
  getMimeTypeFromExtension fileName = JsString "application/octet-stream".
Proof.
  intros Hext Hnone Hproto. unfold getMimeTypeFromExtension.
  rewrite Hext. cbn [fmap option_fmap option_map].
  destruct (negb (String.eqb (Js.toLowerCase ext) EmptyString));
    [|reflexivity].
  unfold mimeTypes_get. rewrite Hnone, Hproto. reflexivity.
Qed.

(** C6. The lookup falls through to the properties every object inherits:
    [constructor] is no key of the table, yet a name with that extension
    does not get the generic binary type but the function [Object]; the
    same happens with [__proto__].  A name without any dot is taken whole
    as its extension, so the name [pdf] gets the PDF type. *)
Theorem getMimeTypeFromExtension_inherited_property :
  mimeTypes !! "constructor" = None
  /\ getMimeTypeFromExtension "file.constructor" = JsFunction "Object"
  /\ getMimeTypeFromExtension "file.constructor"
     <> JsString "application/octet-stream"
  /\ mimeTypes !! "__proto__" = None
  /\ getMimeTypeFromExtension "file.__proto__" = JsObject false None None
  /\ Js.split "." "pdf" = ["pdf"]
  /\ getMimeTypeFromExtension "pdf" = JsString "application/pdf".
Proof.
  repeat split; try (vm_compute; reflexivity).
  vm_compute. discriminate.
Qed.

(** ** formatFileSize *)

Lemma digits_prefix_string_of_uint (d : Decimal.uint) :
  digits_prefix (string_of_uint d) = d.
Proof. induction d; simpl; try rewrite IHd; reflexivity. Qed.

Lemma N_to_uint_nonnil (n : N) : N.to_uint n <> Decimal.Nil.
Proof.
  destruct n as [|p]; simpl; [discriminate|].
  apply DecimalPos.Unsigned.to_uint_nonnil.
Qed.

(** A printed natural number starts with a digit: no white space and no
    sign in front. *)
Lemma string_of_uint_head (d : Decimal.uint) :
  d <> Decimal.Nil ->
  exists c r, string_of_uint d = String c r
              /\ Js.isWhiteSpace c = false
              /\ (Js.code c =? 45)%N = false /\ (Js.code c =? 43)%N = false.
Proof.
  destruct d; [contradiction | ..]; intros _; simpl;
    eexists _, _; repeat split; reflexivity.
Qed.

Lemma parseInt10_of_digits (sign : Z) (d : Decimal.uint) :
  d <> Decimal.Nil ->
  match digits_prefix (string_of_uint d) with
  | Decimal.Nil => None
  | d' => Some (sign * Z.of_N (N.of_uint d'))
  end = Some (sign * Z.of_N (N.of_uint d)).
Proof.
  intro H. rewrite digits_prefix_string_of_uint.
  destruct d; [contradiction | ..]; reflexivity.
Qed.

(** [parseInt] reads back what [String] prints. *)
Lemma parseInt10_Number_toString (n : Z) :
  parseInt10 (Number_toString n) = Some n.
Proof.
  unfold Number_toString. destruct (n <? 0) eqn:Hn.
  - apply Z.ltb_lt in Hn. unfold parseInt10.
    change (Js.trimStart (String "-" ?s)) with (String "-" s).
    cbv beta iota. change (Js.code "-" =? 45)%N with true. cbv iota.
    rewrite parseInt10_of_digits by apply N_to_uint_nonnil.
    rewrite DecimalN.Unsigned.of_to. f_equal. lia.
  - apply Z.ltb_ge in Hn. unfold parseInt10.
    destruct (string_of_uint_head (N.to_uint (Z.to_N n)))
      as (c & r & E & Hws & Hm & Hp); [apply N_to_uint_nonnil|].
    rewrite E. simpl Js.trimStart. rewrite Hws. rewrite Hm, Hp.
    rewrite <- E.
    rewrite parseInt10_of_digits by apply N_to_uint_nonnil.
    rewrite DecimalN.Unsigned.of_to. f_equal. lia.
Qed.

Lemma floor_log_k_spec (size : Z) :
  0 < size ->
  0 <= floor_log_k size
  /\ k ^ floor_log_k size <= size < k ^ (floor_log_k size + 1).
Proof.
  intro Hpos. unfold floor_log_k, k. change (Z.log2 1024) with 10.
  pose proof (Z.log2_spec size Hpos) as [Hlo Hhi].
  pose proof (Z.log2_nonneg size) as Hl.
  set (l := Z.log2 size) in *.
  assert (Hi : 0 <= l / 10) by (apply Z.div_pos; lia).
  pose proof (Z.mul_div_le l 10 ltac:(lia)) as Hle.
  pose proof (Z.mul_succ_div_gt l 10 ltac:(lia)) as Hgt.
  change 1024 with (2 ^ 10).
  rewrite <- !Z.pow_mul_r by lia.
  split; [exact Hi|]. split.
  - transitivity (2 ^ l); [|exact Hlo].
    apply Z.pow_le_mono_r; lia.
  - eapply Z.lt_le_trans; [exact Hhi|].
    apply Z.pow_le_mono_r; lia.
Qed.

Lemma floor_log_k_small (size : Z) :
  0 < size < 1024 -> floor_log_k size = 0.
Proof.
  intros [Hpos Hlt]. unfold floor_log_k, k. change (Z.log2 1024) with 10.
  assert (Z.log2 size < 10)
    by (apply Z.log2_lt_pow2; [lia | exact Hlt]).
  pose proof (Z.log2_nonneg size).
  apply Z.div_small. lia.
Qed.

(** [toFixed(2)] picks the nearest number of hundredths. *)
Lemma toFixed2_hundredths_nearest (num den : Z) :
  0 <= num -> 0 < den ->
  let n := toFixed2_hundredths num den in
  0 <= n /\ 2 * Z.abs (n * den - 100 * num) <= den.
Proof.
  intros Hnum Hden n. subst n. unfold toFixed2_hundredths.
  pose proof (Z.div_mod (2 * 100 * num + den) (2 * den) ltac:(lia)) as E.
  pose proof (Z.mod_pos_bound (2 * 100 * num + den) (2 * den) ltac:(lia)) as B.
  set (q := (2 * 100 * num + den) / (2 * den)) in *.
  set (r := (2 * 100 * num + den) mod (2 * den)) in *.
  split; [apply Z.div_pos; lia | lia].
Qed.

Lemma app_empty_r (s : string) : s +:+ EmptyString = s.
Proof.
  induction s as [|c s IH]; [reflexivity|].
  change (String c (s +:+ EmptyString) = String c s). f_equal. exact IH.
Qed.

(** A whole number prints without a fraction. *)
Lemma hundredths_toString_whole (n : Z) :
  hundredths_toString (100 * n) = Number_toString n.
Proof.
  unfold hundredths_toString.
  replace (100 * n / 100) with n by (symmetry; rewrite Z.mul_comm; apply Z.div_mul; lia).
  replace ((100 * n) mod 100) with 0
    by (symmetry; rewrite Z.mul_comm; apply Z.mod_mul; lia).
  apply app_empty_r.
Qed.

Lemma fraction_text_short_nat (j : nat) :
  (j < 100)%nat -> (String.length (fraction_text (Z.of_nat j)) <= 3)%nat.
Proof.
  intro H.
  do 100 (destruct j as [|j]; [vm_compute; lia|]).
  lia.
Qed.

Lemma fraction_text_short (fp : Z) :
  0 <= fp < 100 -> (String.length (fraction_text fp) <= 3)%nat.
Proof.
  intro H. rewrite <- (Z2Nat.id fp) by lia.
  apply fraction_text_short_nat. lia.
Qed.

Lemma formatFileSize_positive (size : Z) :
  0 < size ->
  formatFileSize (OfNumber size)
  = hundredths_toString (toFixed2_hundredths size (k ^ floor_log_k size))
    +:+ " " +:+ sizes_at (floor_log_k size).
Proof.
  intro H. unfold formatFileSize.
  destruct (size =? 0) eqn:E0; [apply Z.eqb_eq in E0; lia|].
  destruct (size <? 0) eqn:E1; [apply Z.ltb_lt in E1; lia|].
  reflexivity.
Qed.

(** C7. [formatFileSize] maps 0 to 0 Bytes, every byte count below 1024 to
    that count followed by Bytes, the powers 1024^1 .. 1024^4 to 1 KB, 1 MB,
    1 GB and 1 TB, and 1536 to 1.5 KB; the number printed for a positive
    count (up to 1023 TB) is the multiple of 1/100 nearest to the count divided by the
    unit, written with at most two decimals; and the decimal string of a
    count gives the same text as the count itself. *)
Theorem formatFileSize_spec :
  formatFileSize (OfNumber 0) = "0 Bytes"
  /\ (forall n, 0 <= n < 1024 ->
        formatFileSize (OfNumber n) = Number_toString n +:+ " Bytes")
  /\ formatFileSize (OfNumber 1024) = "1 KB"
  /\ formatFileSize (OfNumber (1024 ^ 2)) = "1 MB"
  /\ formatFileSize (OfNumber (1024 ^ 3)) = "1 GB"
  /\ formatFileSize (OfNumber (1024 ^ 4)) = "1 TB"
  /\ formatFileSize (OfNumber 1536) = "1.5 KB"
  /\ (forall size, 0 < size <= 1023 * 1024 ^ 4 ->
        exists i n,
          0 <= i /\ 1024 ^ i <= size < 1024 ^ (i + 1)
          /\ 0 <= n /\ 2 * Z.abs (n * 1024 ^ i - 100 * size) <= 1024 ^ i
          /\ (String.length (fraction_text (n mod 100)) <= 3)%nat
          /\ formatFileSize (OfNumber size)
             = (Number_toString (n / 100) +:+ fraction_text (n mod 100))
               +:+ " " +:+ sizes_at i)
  /\ (forall n, formatFileSize (OfString (Number_toString n))
                = formatFileSize (OfNumber n)).
Proof.
  split; [reflexivity|].
  split.
  { intros n Hn. destruct (Z.eq_dec n 0) as [-> | Hne]; [reflexivity|].
    rewrite formatFileSize_positive by lia.
    rewrite floor_log_k_small by lia.
    change (k ^ 0) with 1.
    replace (toFixed2_hundredths n 1) with (100 * n).
    - rewrite hundredths_toString_whole. reflexivity.
    - unfold toFixed2_hundredths.
      replace (2 * 100 * n + 1) with (1 + (100 * n) * (2 * 1)) by lia.
      rewrite Z.div_add by lia. reflexivity. }
  do 5 (split; [vm_compute; reflexivity|]).
  split.
  { intros size [Hsize _].
    destruct (floor_log_k_spec size Hsize) as (Hi & Hlo & Hhi).
    assert (Hden : 0 < k ^ floor_log_k size) by (apply Z.pow_pos_nonneg; unfold k; lia).
    destruct (toFixed2_hundredths_nearest size (k ^ floor_log_k size)
                ltac:(lia) Hden) as [Hn Hnear].
    exists (floor_log_k size),
           (toFixed2_hundredths size (k ^ floor_log_k size)).
    change 1024 with k.
    repeat split; try assumption.
    - apply fraction_text_short. apply Z.mod_pos_bound. lia.
    - rewrite formatFileSize_positive by exact Hsize.
      reflexivity. }
  intro n. unfold formatFileSize at 1.
  rewrite parseInt10_Number_toString. reflexivity.
Qed.

(** The theorem at a count of 999 bytes and at 1152 bytes, which lies half
    way between 1.12 KB and 1.13 KB. *)
Lemma formatFileSize_spec_witness :
  formatFileSize (OfNumber 999) = "999 Bytes"
  /\ formatFileSize (OfNumber 1152) = "1.13 KB".
Proof.
  destruct formatFileSize_spec as (_ & Hsmall & _).
  split.
  - exact (Hsmall 999 ltac:(lia)).
  - vm_compute. reflexivity.
Defined.

(** ** The service: validation *)

Lemma fileId_missing_spec (fileId : string) :
  fileId_missing fileId = true <-> all_whitespace fileId.
Proof.
  unfold fileId_missing, all_whitespace.
  rewrite <- every_char_forall, <- trim_empty_iff, orb_true_iff.
  rewrite Nat.eqb_eq, length_zero_iff_empty. split.
  - intros [H | H]; [|exact H].
    apply String.eqb_eq in H. subst fileId. reflexivity.
  - intro H. right. exact H.
Qed.

Lemma fileId_present (fileId : string) :
  ~ all_whitespace fileId -> fileId_missing fileId = false.
Proof.
  intro H. destruct (fileId_missing fileId) eqn:E; [|reflexivity].
  exfalso. apply H, fileId_missing_spec, E.
Qed.

(** C3. An invalid name stops both upload methods, and an empty or
    white-space-only id stops the four id-based methods, with the upload
    error or the download error of the taxonomy, in the state the call
    started in: no remote call is recorded and no handle is built. *)
Theorem validation_precedes_remote
    (remote : Invocation -> Outcome) (st : State) :
  (forall content opts,
      validateFileName (UploadFileOptions.name opts) = false ->
      uploadFile remote content opts st
      = (Throw (new_FileUploadError "Invalid file name"
                  (Some (UploadFileOptions.name opts)) None), st))
  /\ (forall content opts userOptions,
      validateFileName (UploadFileOptions.name opts) = false ->
      uploadFileToUserDrive remote content opts userOptions st
      = (Throw (new_FileUploadError "Invalid file name"
                  (Some (UploadFileOptions.name opts)) None), st))
  /\ (forall fileId,
      all_whitespace fileId ->
      downloadFile remote fileId st
      = (Throw (new_FileDownloadError "File ID is required"
                  (Some fileId) None), st))
  /\ (forall fileId,
      all_whitespace fileId ->
      getFileMetadata remote fileId st
      = (Throw (new_FileDownloadError "File ID is required"
                  (Some fileId) None), st))
  /\ (forall fileId userOptions,
      all_whitespace fileId ->
      downloadFileFromUserDrive remote fileId userOptions st
      = (Throw (new_FileDownloadError "File ID is required"
                  (Some fileId) None), st))
  /\ (forall fileId userOptions,
      all_whitespace fileId ->
      getFileMetadataFromUserDrive remote fileId userOptions st
      = (Throw (new_FileDownloadError "File ID is required"
                  (Some fileId) None), st)).
Proof.
  repeat split.
  - intros content opts H. unfold uploadFile. rewrite H. reflexivity.
  - intros content opts u H. unfold uploadFileToUserDrive. rewrite H.
    reflexivity.
  - intros fileId H%fileId_missing_spec. unfold downloadFile.
    rewrite H. reflexivity.
  - intros fileId H%fileId_missing_spec. unfold getFileMetadata.
    rewrite H. reflexivity.
  - intros fileId u H%fileId_missing_spec. unfold downloadFileFromUserDrive.
    rewrite H. reflexivity.
  - intros fileId u H%fileId_missing_spec.
    unfold getFileMetadataFromUserDrive. rewrite H. reflexivity.
Qed.

(** The theorem on the names and ids of the test suite: the remote side
    would resolve, and is not asked. *)
Lemma validation_precedes_remote_witness :
  fst (uploadFile (resolving (file_with_id "X")) (inr [])
         {| UploadFileOptions.name := "invalid<file>name.txt";
            UploadFileOptions.parents := None;
            UploadFileOptions.mimeType := None |} example_state)
  = Throw (new_FileUploadError "Invalid file name"
             (Some "invalid<file>name.txt") None)
  /\ calls (snd (downloadFile (resolving (file_with_id "X")) "   "
                   example_state)) = [].
Proof.
  destruct (validation_precedes_remote (resolving (file_with_id "X"))
              example_state) as (Hup & _ & Hdown & _).
  split.
  - rewrite Hup; reflexivity.
  - rewrite Hdown; [reflexivity|].
    intros c Hin. simpl in Hin.
    destruct Hin as [<- | [<- | [<- | []]]]; reflexivity.
Defined.

(** ** The service: remote failures *)

Lemma code_is_carries (n : Z) (error : JsValue) :
  code_is n error = true <-> carries_code n error.
Proof.
  unfold carries_code. split.
  - destruct error as [| | | | | |b m [c|]]; try discriminate.
    destruct c; try discriminate. simpl. intros ->%Z.eqb_eq. eauto.
  - intros (b & m & ->). simpl. apply Z.eqb_refl.
Qed.

Lemma code_is_false (n : Z) (error : JsValue) :
  ~ carries_code n error -> code_is n error = false.
Proof.
  intro H. destruct (code_is n error) eqn:E; [|reflexivity].
  exfalso. apply H, code_is_carries, E.
Qed.

Lemma carries_code_object (n : Z) (error : JsValue) :
  carries_code n error ->
  truthy error && JsType_eqb (typeof error) t_object && has_code error = true.
Proof. intros (b & m & ->). reflexivity. Qed.

Lemma download_catch_cause (notFound denied fileId : string)
    (error : JsValue) :
  Err.cause (download_catch notFound denied fileId error)
  = Error_or_undefined error.
Proof.
  unfold download_catch.
  destruct (truthy error && JsType_eqb (typeof error) t_object
            && has_code error); [|reflexivity].
  destruct (code_is 404 error); [reflexivity|].
  destruct (code_is 403 error); reflexivity.
Qed.

Lemma download_catch_other (notFound denied fileId : string)
    (error : JsValue) :
  ~ carries_code 404 error -> ~ carries_code 403 error ->
  download_catch notFound denied fileId error
  = new_FileDownloadError (message_or "Unknown download error" error)
      (Some fileId) (Error_or_undefined error).
Proof.
  intros H4 H3. unfold download_catch.
  rewrite (code_is_false _ _ H4), (code_is_false _ _ H3).
  destruct (truthy error && JsType_eqb (typeof error) t_object
            && has_code error); reflexivity.
Qed.

Lemma downloadFile_rejected (remote : Invocation -> Outcome) (st : State)
    (fileId : string) (error : JsValue) :
  fileId_missing fileId = false ->
  remote (through_service st (download_request fileId)) = Rejected error ->
  fst (downloadFile remote fileId st)
  = Throw (download_catch "File not found" "Access denied" fileId error).
Proof.
  intros Hid Hrej. unfold downloadFile. rewrite Hid.
  unfold bind, get_this, download_via, bind, await. cbn [fst snd].
  unfold through_service, download_request in Hrej. rewrite Hrej.
  reflexivity.
Qed.

(** C1, as the code has it. When the remote get of [downloadFile] rejects,
    the method throws: for a rejection object with code 404 a download
    error with the file id, for one with code 403 an authentication error
    (which has no file id), for any other rejection a download error with
    the file id and the message of the rejection.  The cause of the thrown
    error is the rejection value when that is an [Error] instance, and is
    not set otherwise. *)
Theorem downloadFile_rejection (remote : Invocation -> Outcome) (st : State)
    (fileId : string) (error : JsValue) :
  ~ all_whitespace fileId ->
  remote (through_service st (download_request fileId)) = Rejected error ->
  exists e,
    fst (downloadFile remote fileId st) = Throw e
    /\ Err.cause e = (if instanceof_Error error then Some error else None)
    /\ (carries_code 404 error ->
        Err.class e = FileDownloadError
        /\ Err.fileId e = Some fileId
        /\ Err.message e = "File download failed: File not found")
    /\ (carries_code 403 error ->
        Err.class e = AuthenticationError
        /\ Err.fileId e = None
        /\ Err.message e = "Authentication failed: Access denied")
    /\ (~ carries_code 404 error -> ~ carries_code 403 error ->
        Err.class e = FileDownloadError
        /\ Err.fileId e = Some fileId
        /\ Err.message e
           = "File download failed: "
             +:+ (if instanceof_Error error then Error_message error
                  else "Unknown download error")).
Proof.
  intros Hid%fileId_present Hrej.
  eexists. split; [apply (downloadFile_rejected _ _ _ _ Hid Hrej)|].
  split; [apply download_catch_cause|].
  split; [|split].
  - intro H. unfold download_catch.
    rewrite (carries_code_object _ _ H).
    apply code_is_carries in H. rewrite H. repeat split.
  - intro H. unfold download_catch.
    rewrite (carries_code_object _ _ H).
    destruct H as (b & m & ->). repeat split.
  - intros H4 H3. rewrite (download_catch_other _ _ _ _ H4 H3).
    repeat split.
Qed.

(** The theorem on a forbidden file: the library's error becomes the cause
    of an authentication error. *)
Lemma downloadFile_rejection_witness :
  exists e,
    fst (downloadFile (rejecting error_403) "forbidden-file" example_state)
    = Throw e
    /\ Err.class e = AuthenticationError
    /\ Err.cause e = Some error_403.
Proof.
  assert (Hid : ~ all_whitespace "forbidden-file").
  { intro H. specialize (H "f"%char (or_introl eq_refl)). discriminate H. }
  destruct (downloadFile_rejection (rejecting error_403) example_state
              "forbidden-file" error_403 Hid eq_refl)
    as (e & He & Hcause & _ & H403 & _).
  exists e. split; [exact He|]. split.
  - apply H403. exists true, (Some "The user does not have sufficient permissions").
    reflexivity.
  - exact Hcause.
Defined.

(** C1 as the claim words it fails on the rejection value of the test
    suite, a plain object with code 404: the download error that comes out
    has no cause. *)
Lemma downloadFile_plain_rejection_has_no_cause :
  exists e,
    fst (downloadFile (rejecting plain_404) "non-existent-file" example_state)
    = Throw e
    /\ Err.class e = FileDownloadError
    /\ Err.cause e = None
    /\ Err.cause e <> Some plain_404.
Proof.
  eexists. split; [vm_compute; reflexivity|].
  repeat split. discriminate.
Qed.

Lemma getFileMetadata_rejected (remote : Invocation -> Outcome) (st : State)
    (fileId : string) (error : JsValue) :
  fileId_missing fileId = false ->
  remote (through_service st (metadata_request fileId)) = Rejected error ->
  fst (getFileMetadata remote fileId st)
  = Throw (new_FileDownloadError (message_or "Unknown error" error)
             (Some fileId) (Error_or_undefined error)).
Proof.
  intros Hid Hrej. unfold getFileMetadata. rewrite Hid.
  unfold bind, get_this, metadata_via, bind, await. cbn [fst snd].
  unfold through_service, metadata_request in Hrej. rewrite Hrej.
  reflexivity.
Qed.

(** C2, as the code has it. When the remote get of [getFileMetadata]
    rejects, the method throws a download error with the file id whatever
    the rejection is; the codes 403 and 404 change neither the class nor
    the message.  The cause is the rejection value when that is an [Error]
    instance, and is not set otherwise. *)
Theorem getFileMetadata_rejection (remote : Invocation -> Outcome)
    (st : State) (fileId : string) (error : JsValue) :
  ~ all_whitespace fileId ->
  remote (through_service st (metadata_request fileId)) = Rejected error ->
  exists e,
    fst (getFileMetadata remote fileId st) = Throw e
    /\ Err.class e = FileDownloadError
    /\ Err.fileId e = Some fileId
    /\ Err.cause e = (if instanceof_Error error then Some error else None)
    /\ Err.message e
       = "File download failed: "
         +:+ (if instanceof_Error error then Error_message error
              else "Unknown error").
Proof.
  intros Hid%fileId_present Hrej.
  eexists. split; [apply (getFileMetadata_rejected _ _ _ _ Hid Hrej)|].
  repeat split.
Qed.

(** The theorem on a forbidden file: still a download error. *)
Lemma getFileMetadata_rejection_witness :
  exists e,
    fst (getFileMetadata (rejecting error_403) "forbidden-file" example_state)
    = Throw e
    /\ Err.class e = FileDownloadError
    /\ Err.cause e = Some error_403.
Proof.
  assert (Hid : ~ all_whitespace "forbidden-file").
  { intro H. specialize (H "f"%char (or_introl eq_refl)). discriminate H. }
  destruct (getFileMetadata_rejection (rejecting error_403) example_state
              "forbidden-file" error_403 Hid eq_refl)
    as (e & He & Hclass & _ & Hcause & _).
  exists e. repeat split; assumption.
Defined.

(** C2 as the claim words it fails on a plain rejection object: the
    download error has no cause. *)
Lemma getFileMetadata_plain_rejection_has_no_cause :
  exists e,
    fst (getFileMetadata (rejecting plain_403) "forbidden-file" example_state)
    = Throw e
    /\ Err.class e = FileDownloadError
    /\ Err.fileId e = Some "forbidden-file"
    /\ Err.cause e = None
    /\ Err.cause e <> Some plain_403.
Proof.
  eexists. split; [vm_compute; reflexivity|].
  repeat split. discriminate.
Qed.

(** ** The service: uploads *)

Lemma upload_via_run (remote : Invocation -> Outcome) (d : Drive)
    (content : Readable + Buffer) (opts : UploadFileOptions.t) (st : State) :
  let inv := {| via := d; client := heap st !! auth d;
                request := create_request content opts (upload_mimeType opts) |} in
  upload_via remote d content opts st
  = (match remote inv with
     | Resolved data =>
         Return {| metadata := data; downloadUrl := viewer_url data |}
     | Rejected error =>
         Throw (new_FileUploadError (message_or "Unknown upload error" error)
                  (Some (UploadFileOptions.name opts))
                  (Error_or_undefined error))
     end,
     {| this := this st; heap := heap st; calls := calls st ++ [inv] |}).
Proof.
  intro inv. unfold upload_via, bind, await.
  fold (create_request content opts (upload_mimeType opts)). fold inv.
  destruct (remote inv); reflexivity.
Qed.

Lemma uploadFile_run (remote : Invocation -> Outcome)
    (content : Readable + Buffer) (opts : UploadFileOptions.t) (st : State) :
  validateFileName (UploadFileOptions.name opts) = true ->
  uploadFile remote content opts st
  = upload_via remote (drive (this st)) content opts st.
Proof. intro H. unfold uploadFile. rewrite H. reflexivity. Qed.

(** C4. With no MIME type in the options, [uploadFile] makes one remote
    create call whose MIME type is the one [getMimeTypeFromExtension] gives
    for the name; for the name report.pdf that is application/pdf; and when
    the call resolves with a file whose id is X, the result carries the
    viewer URL of X. *)
Theorem uploadFile_infers_mimeType (remote : Invocation -> Outcome)
    (st : State) (content : Readable + Buffer) (opts : UploadFileOptions.t) :
  UploadFileOptions.mimeType opts = None ->
  validateFileName (UploadFileOptions.name opts) = true ->
  let inv :=
    through_service st
      (create_request content opts
         (getMimeTypeFromExtension (UploadFileOptions.name opts))) in
  calls (snd (uploadFile remote content opts st)) = (calls st ++ [inv])%list
  /\ (UploadFileOptions.name opts = "report.pdf" ->
      inv = through_service st
              (create_request content opts (JsString "application/pdf")))
  /\ (forall data,
        remote inv = Resolved data -> data_id data = Some "X" ->
        exists result,
          fst (uploadFile remote content opts st) = Return result
          /\ metadata result = data
          /\ downloadUrl result = "https://drive.google.com/file/d/X/view").
Proof.
  intros Hmime Hname inv.
  rewrite (uploadFile_run _ _ _ _ Hname), upload_via_run.
  assert (Hm : upload_mimeType opts
               = getMimeTypeFromExtension (UploadFileOptions.name opts)).
  { unfold upload_mimeType. rewrite Hmime. reflexivity. }
  rewrite Hm. fold (through_service st
    (create_request content opts
       (getMimeTypeFromExtension (UploadFileOptions.name opts)))).
  fold inv. cbn [fst snd calls].
  split; [reflexivity|]. split.
  - intro E. subst inv. rewrite E. reflexivity.
  - intros data Hres Hid. rewrite Hres. eexists. split; [reflexivity|].
    split; [reflexivity|]. cbn [downloadUrl]. unfold viewer_url.
    rewrite Hid. reflexivity.
Qed.

(** The scenario of the specification: a buffer named report.pdf, a remote
    side that answers with the file X. *)
Lemma uploadFile_infers_mimeType_witness :
  calls (snd (uploadFile (resolving (file_with_id "X")) (inr [])
                report_pdf example_state))
  = [through_service example_state
       (create_request (inr []) report_pdf (JsString "application/pdf"))]
  /\ exists result,
       fst (uploadFile (resolving (file_with_id "X")) (inr [])
              report_pdf example_state) = Return result
       /\ downloadUrl result = "https://drive.google.com/file/d/X/view".
Proof.
  destruct (uploadFile_infers_mimeType (resolving (file_with_id "X"))
              example_state (inr []) report_pdf eq_refl eq_refl)
    as (Hcalls & Hpdf & Hurl).
  split.
  - rewrite Hcalls, (Hpdf eq_refl). reflexivity.
  - destruct (Hurl (file_with_id "X") eq_refl eq_refl) as (r & Hr & _ & Hu).
    exists r. split; assumption.
Defined.





(** ** The service: connection test *)

Lemma connection_via_run (remote : Invocation -> Outcome) (d : Drive)
    (st : State) :
  let inv := {| via := d; client := heap st !! auth d;
                request := about_get "user" |} in
  connection_via remote d st
  = (Return (match remote inv with
             | Resolved _ => true
             | Rejected _ => false
             end),
     {| this := this st; heap := heap st; calls := calls st ++ [inv] |}).
Proof.
  intro inv. unfold connection_via, bind, await. fold inv.
  destruct (remote inv); reflexivity.
Qed.

(** C8. [testConnection] returns true when the identity call resolves and
    false when it rejects, whatever the rejection; it always returns and
    never throws.  The other three module-wide methods do throw when their
    remote call rejects. *)
Theorem testConnection_swallows_failure (remote : Invocation -> Outcome)
    (st : State) :
  (forall data,
      remote (through_service st (about_get "user")) = Resolved data ->
      fst (testConnection remote st) = Return true)
  /\ (forall error,
      remote (through_service st (about_get "user")) = Rejected error ->
      fst (testConnection remote st) = Return false)
  /\ (exists b, fst (testConnection remote st) = Return b)
  /\ (forall content opts error,
      validateFileName (UploadFileOptions.name opts) = true ->
      remote (through_service st
                (create_request content opts (upload_mimeType opts)))
      = Rejected error ->
      exists e, fst (uploadFile remote content opts st) = Throw e)
  /\ (forall fileId error,
      ~ all_whitespace fileId ->
      remote (through_service st (download_request fileId))
      = Rejected error ->
      exists e, fst (downloadFile remote fileId st) = Throw e)
  /\ (forall fileId error,
      ~ all_whitespace fileId ->
      remote (through_service st (metadata_request fileId))
      = Rejected error ->
      exists e, fst (getFileMetadata remote fileId st) = Throw e).
Proof.
  unfold testConnection, bind, get_this. rewrite connection_via_run.
  fold (through_service st (about_get "user")). cbn [fst].
  split; [|split; [|split; [|split; [|split]]]].
  - intros data H. rewrite H. reflexivity.
  - intros error H. rewrite H. reflexivity.
  - eexists. reflexivity.
  - intros content opts error Hname Hrej.
    rewrite (uploadFile_run _ _ _ _ Hname), upload_via_run.
    fold (through_service st
            (create_request content opts (upload_mimeType opts))).
    rewrite Hrej. eexists. reflexivity.
  - intros fileId error Hid%fileId_present Hrej. eexists.
    apply (downloadFile_rejected _ _ _ _ Hid Hrej).
  - intros fileId error Hid%fileId_present Hrej. eexists.
    apply (getFileMetadata_rejected _ _ _ _ Hid Hrej).
Qed.

(** The theorem on the failing connection of the test suite. *)
Lemma testConnection_swallows_failure_witness :
  fst (testConnection
         (rejecting (JsObject true (Some "Connection failed") None))
         example_state) = Return false.
Proof.
  destruct (testConnection_swallows_failure
              (rejecting (JsObject true (Some "Connection failed") None))
              example_state) as (_ & Hfalse & _).
  exact (Hfalse _ eq_refl).
Defined.

(** ** The service: the per-user methods *)

Lemma createUserDriveInstance_run (c : UserCredentials.t) (st : State) :
  let l := fresh (dom (heap st)) in
  createUserDriveInstance c st
  = (Return (google_drive DRIVE_API_VERSION l),
     {| this := this st;
        heap := <[ l := user_client (options (this st)) c ]> (heap st);
        calls := calls st |}).
Proof.
  intro l. unfold createUserDriveInstance, bind, get_this, new_OAuth2,
    setCredentials, ret, OAuth2_new, OAuth2_setCredentials.
  cbn [fst snd this heap calls]. fold l.
  rewrite alter_insert_eq. reflexivity.
Qed.

Lemma fresh_location_unused (h : gmap loc OAuth2Client) :
  h !! fresh (dom h) = None.
Proof. apply not_elem_of_dom, is_fresh. Qed.

(** What all four per-user methods have in common: the state they leave
    is the state they found, or that state with one new OAuth2 client at an
    unused location and one remote call made through it. *)
Lemma state_after_shape (remote : Invocation -> Outcome) (c : UserCall)
    (st : State) :
  let l := fresh (dom (heap st)) in
  let o := user_client (options (this st)) (caller_credentials c) in
  state_after remote c st = st
  \/ exists req,
       state_after remote c st
       = {| this := this st;
            heap := <[ l := o ]> (heap st);
            calls := calls st
                     ++ [ {| via := google_drive DRIVE_API_VERSION l;
                             client := Some o;
                             request := req |} ] |}.
Proof.
  intros l o. destruct c as [content opts u | fileId u | fileId u | u];
    cbn [state_after caller_credentials] in *.
  - unfold uploadFileToUserDrive.
    destruct (negb (validateFileName (UploadFileOptions.name opts)));
      [left; reflexivity|].
    right. unfold bind at 1. rewrite createUserDriveInstance_run.
    rewrite upload_via_run. cbn [snd this heap calls auth google_drive].
    rewrite lookup_insert_eq. eexists. reflexivity.
  - unfold downloadFileFromUserDrive.
    destruct (fileId_missing fileId); [left; reflexivity|].
    right. unfold bind at 1. rewrite createUserDriveInstance_run.
    unfold download_via, bind, await.
    cbn [snd this heap calls auth google_drive].
    rewrite lookup_insert_eq.
    destruct (remote _); eexists; reflexivity.
  - unfold getFileMetadataFromUserDrive.
    destruct (fileId_missing fileId); [left; reflexivity|].
    right. unfold bind at 1. rewrite createUserDriveInstance_run.
    unfold metadata_via, bind, await.
    cbn [snd this heap calls auth google_drive].
    rewrite lookup_insert_eq.
    destruct (remote _); eexists; reflexivity.
  - right. unfold testUserDriveConnection, bind at 1.
    rewrite createUserDriveInstance_run, connection_via_run.
    cbn [snd this heap calls auth google_drive].
    rewrite lookup_insert_eq. eexists. reflexivity.
Qed.

(** The constructor leaves a state that holds the client of its handle. *)
Lemma new_GoogleDriveService_initialized (opts : ModuleOptions.t)
    (heap0 : gmap loc OAuth2Client) (calls0 : list Invocation) :
  initialized (new_GoogleDriveService opts heap0 calls0).
Proof.
  unfold initialized, new_GoogleDriveService, initializeDrive, OAuth2_new,
    OAuth2_setCredentials.
  cbn [this heap drive auth google_drive].
  destruct (truthy_string (ModuleOptions.refreshToken opts)).
  - rewrite alter_insert_eq, lookup_insert_eq. eauto.
  - rewrite lookup_insert_eq. eauto.
Qed.



(** ** More on getMimeTypeFromExtension *)

Lemma append_cons (c : ascii) (s t : string) :
  String c s +:+ t = String c (s +:+ t).
Proof. reflexivity. Qed.

Lemma toLowerCase_char_dot (c : ascii) :
  Ascii.eqb (Js.toLowerCase_char c) "." = Ascii.eqb c ".".
Proof.
  destruct c as [[] [] [] [] [] [] [] []]; vm_compute; reflexivity.
Qed.

Lemma toLowerCase_char_idem (c : ascii) :
  Js.toLowerCase_char (Js.toLowerCase_char c) = Js.toLowerCase_char c.
Proof.
  destruct c as [[] [] [] [] [] [] [] []]; vm_compute; reflexivity.
Qed.

Lemma toLowerCase_idem (s : string) :
  Js.toLowerCase (Js.toLowerCase s) = Js.toLowerCase s.
Proof.
  induction s as [|c s IH]; simpl; [reflexivity|].
  rewrite toLowerCase_char_idem, IH. reflexivity.
Qed.

Lemma split_toLowerCase (s : string) :
  Js.split "." (Js.toLowerCase s) = map Js.toLowerCase (Js.split "." s).
Proof.
  induction s as [|c s IH]; simpl; [reflexivity|].
  rewrite toLowerCase_char_dot, IH.
  destruct (Ascii.eqb c "."); [reflexivity|].
  destruct (Js.split "." s); reflexivity.
Qed.

Lemma pop_map {A B} (f : A -> B) (a : list A) :
  Js.pop (map f a) = f <$> Js.pop a.
Proof.
  induction a as [|x a IH]; [reflexivity|].
  destruct a as [|y a]; [reflexivity|]. exact IH.
Qed.

Lemma extension_toLowerCase (s : string) :
  Js.toLowerCase <$> Js.pop (Js.split "." (Js.toLowerCase s))
  = Js.toLowerCase <$> Js.pop (Js.split "." s).
Proof.
  rewrite split_toLowerCase, pop_map.
  destruct (Js.pop (Js.split "." s)) as [e|]; [|reflexivity].
  cbn [fmap option_fmap option_map]. rewrite toLowerCase_idem. reflexivity.
Qed.

(** X1. The letter case of a name does not matter to the MIME type looked
    up for it. *)
Theorem getMimeTypeFromExtension_ignores_case (fileName : string) :
  getMimeTypeFromExtension (Js.toLowerCase fileName)
  = getMimeTypeFromExtension fileName.
Proof.
  unfold getMimeTypeFromExtension. rewrite extension_toLowerCase.
  reflexivity.
Qed.

Lemma split_append_sep (sep : ascii) (p e : string) :
  Js.split sep (p +:+ String sep e)
  = (Js.split sep p ++ Js.split sep e)%list.
Proof.
  induction p as [|c p IH].
  - change (EmptyString +:+ String sep e) with (String sep e).
    simpl. rewrite Ascii.eqb_refl. reflexivity.
  - rewrite append_cons. simpl. rewrite IH.
    destruct (Ascii.eqb c sep); [reflexivity|].
    pose proof (split_nonempty sep p) as Hne.
    destruct (Js.split sep p); [contradiction | reflexivity].
Qed.

Lemma pop_app_nonempty {A} (a b : list A) :
  b <> [] -> Js.pop (a ++ b)%list = Js.pop b.
Proof.
  intro Hb. induction a as [|x a IH]; [reflexivity|].
  rewrite <- IH. simpl.
  destruct (a ++ b)%list eqn:E; [|reflexivity].
  apply app_eq_nil in E as [_ E]. contradiction.
Qed.

(** X2. Only what follows the last dot counts: putting any text and a dot
    in front of a name does not change the MIME type looked up. *)
Theorem getMimeTypeFromExtension_after_last_dot (front rest : string) :
  getMimeTypeFromExtension (front +:+ String "." rest)
  = getMimeTypeFromExtension rest.
Proof.
  unfold getMimeTypeFromExtension.
  rewrite split_append_sep, pop_app_nonempty by apply split_nonempty.
  reflexivity.
Qed.

Lemma lowered_is_no_method (ext : string) :
  existsb (String.eqb (Js.toLowerCase ext)) Object_prototype_methods = false.
Proof.
  destruct (existsb _ _) eqn:E; [|reflexivity]. exfalso.
  apply existsb_exists in E as (m & Hin & Heq).
  apply String.eqb_eq in Heq.
  assert (Hm : Js.toLowerCase m = m)
    by (rewrite <- Heq; apply toLowerCase_idem).
  simpl in Hin.
  repeat (destruct Hin as [<- | Hin]; [vm_compute in Hm; discriminate Hm|]).
  contradiction.
Qed.

Lemma getMimeTypeFromExtension_cases (fileName : string) :
  truthy (getMimeTypeFromExtension fileName) = true
  /\ ((exists v, getMimeTypeFromExtension fileName = JsString v
                 /\ v <> EmptyString
                 /\ (v = "application/octet-stream"
                     \/ exists key, mimeTypes !! key = Some v))
      \/ extension_of fileName = Some "constructor"
      \/ extension_of fileName = Some "__proto__").
Proof.
  unfold getMimeTypeFromExtension, extension_of.
  destruct (Js.pop (Js.split "." fileName)) as [e|];
    cbn [fmap option_fmap option_map].
  2:{ split; [reflexivity|]. left. eexists. split; [reflexivity|].
      split; [discriminate | left; reflexivity]. }
  destruct (negb (String.eqb (Js.toLowerCase e) EmptyString)).
  2:{ split; [reflexivity|]. left. eexists. split; [reflexivity|].
      split; [discriminate | left; reflexivity]. }
  unfold mimeTypes_get.
  destruct (mimeTypes !! Js.toLowerCase e) as [v|] eqn:Hv.
  - destruct (mimeTypes_entries_truthy _ _ Hv) as [_ Hne].
    cbn [truthy]. rewrite (eqb_empty_false _ Hne). cbn [negb truthy].
    rewrite (eqb_empty_false _ Hne). split; [reflexivity|].
    left. exists v. split; [reflexivity|]. split; [exact Hne|].
    right. eauto.
  - unfold Object_prototype_get.
    destruct (String.eqb (Js.toLowerCase e) "constructor") eqn:Ec.
    { apply String.eqb_eq in Ec. rewrite Ec. split; [reflexivity|].
      right. left. reflexivity. }
    destruct (String.eqb (Js.toLowerCase e) "__proto__") eqn:Ep.
    { apply String.eqb_eq in Ep. rewrite Ep. split; [reflexivity|].
      right. right. reflexivity. }
    rewrite lowered_is_no_method. split; [reflexivity|].
    left. eexists. split; [reflexivity|].
    split; [discriminate | left; reflexivity].
Qed.

(** X3. The value looked up is truthy for every name; it is a non-empty
    string (a value of the table or the generic binary type) unless the
    lower-cased text after the last dot is [constructor] or [__proto__],
    the two inherited properties a lower-cased key can hit. *)
Theorem getMimeTypeFromExtension_string_unless_inherited (fileName : string) :
  truthy (getMimeTypeFromExtension fileName) = true
  /\ ((exists v, getMimeTypeFromExtension fileName = JsString v
                 /\ v <> EmptyString
                 /\ (v = "application/octet-stream"
                     \/ exists key, mimeTypes !! key = Some v))
      \/ extension_of fileName = Some "constructor"
      \/ extension_of fileName = Some "__proto__").
Proof. apply getMimeTypeFromExtension_cases. Qed.

(** ** More on formatFileSize *)

Lemma floor_log_k_large (size : Z) :
  1024 ^ 5 <= size -> 5 <= floor_log_k size.
Proof.
  intro H. unfold floor_log_k, k. change (Z.log2 1024) with 10.
  assert (50 <= Z.log2 size).
  { change 50 with (Z.log2 (1024 ^ 5)). apply Z.log2_le_mono. exact H. }
  change 5 with (50 / 10). apply Z.div_le_mono; lia.
Qed.

Lemma sizes_at_beyond (i : Z) : 5 <= i -> sizes_at i = "undefined".
Proof.
  intro H. unfold sizes_at.
  destruct (i <? 0) eqn:E; [reflexivity|].
  rewrite (lookup_ge_None_2 sizes (Z.to_nat i)); [reflexivity|].
  simpl. lia.
Qed.

Lemma sizes_at_within (i : Z) : 0 <= i < 5 -> In (sizes_at i) sizes.
Proof.
  intro H. assert (E : i = 0 \/ i = 1 \/ i = 2 \/ i = 3 \/ i = 4) by lia.
  destruct E as [-> | [-> | [-> | [-> | ->]]]]; vm_compute; tauto.
Qed.

(** X4. The table of units ends at TB: a count up to 1023 * 1024^4 gets
    one of the five units, and from 1024^5 on the unit printed is the word
    undefined. *)
Theorem formatFileSize_unit_table (size : Z) :
  0 < size ->
  exists number,
    (size <= 1023 * 1024 ^ 4 ->
     exists unit, In unit sizes
                  /\ formatFileSize (OfNumber size) = number +:+ " " +:+ unit)
    /\ (1024 ^ 5 <= size ->
        formatFileSize (OfNumber size) = number +:+ " undefined").
Proof.
  intro Hpos. rewrite formatFileSize_positive by exact Hpos.
  eexists. split.
  - intro Hlt. exists (sizes_at (floor_log_k size)).
    split; [|reflexivity]. apply sizes_at_within.
    destruct (floor_log_k_spec size Hpos) as (Hi & Hlo & _).
    split; [exact Hi|].
    destruct (Z_lt_le_dec (floor_log_k size) 5) as [|Hge]; [assumption|].
    exfalso. assert (k ^ 5 <= k ^ floor_log_k size)
      by (apply Z.pow_le_mono_r; unfold k; lia).
    unfold k in *. lia.
  - intro Hge. rewrite (sizes_at_beyond _ (floor_log_k_large _ Hge)).
    reflexivity.
Qed.

(** The theorem at 1024^5 bytes. *)
Lemma formatFileSize_unit_table_witness :
  exists number,
    formatFileSize (OfNumber (1024 ^ 5)) = number +:+ " undefined".
Proof.
  destruct (formatFileSize_unit_table (1024 ^ 5) ltac:(lia)) as (n & _ & H).
  exists n. apply H. lia.
Defined.



(** X6. The number printed for a count from 1 up to 1023 * 1024^4 lies
    between 1 and 1024, both included: a count just below the next power of 1024
    rounds up to 1024 of the smaller unit. *)
Theorem formatFileSize_number_range (size : Z) :
  0 < size <= 1023 * 1024 ^ 4 ->
  let n := toFixed2_hundredths size (k ^ floor_log_k size) in
  100 <= n <= 102400
  /\ formatFileSize (OfNumber size)
     = hundredths_toString n +:+ " " +:+ sizes_at (floor_log_k size).
Proof.
  intros [Hpos _] n. split; [|apply formatFileSize_positive, Hpos].
  subst n. unfold toFixed2_hundredths.
  destruct (floor_log_k_spec size Hpos) as (Hi & Hlo & Hhi).
  rewrite Z.pow_add_r in Hhi by lia. change (k ^ 1) with 1024 in Hhi.
  assert (Hd : 0 < k ^ floor_log_k size)
    by (apply Z.pow_pos_nonneg; unfold k; lia).
  set (d := k ^ floor_log_k size) in *.
  split.
  - apply Z.div_le_lower_bound; lia.
  - assert ((2 * 100 * size + d) / (2 * d) < 102401); [|lia].
    apply Z.div_lt_upper_bound; lia.
Qed.

(** The theorem one byte below a megabyte. *)
Lemma formatFileSize_number_range_witness :
  formatFileSize (OfNumber (1024 ^ 2 - 1)) = "1024 KB".
Proof.
  destruct (formatFileSize_number_range (1024 ^ 2 - 1) ltac:(lia))
    as [_ H].
  rewrite H. vm_compute. reflexivity.
Defined.

Lemma trimStart_skips (ws s : string) :
  Js.every_char Js.isWhiteSpace ws = true ->
  Js.trimStart (ws +:+ s) = Js.trimStart s.
Proof.
  induction ws as [|c ws IH]; [reflexivity|].
  cbn [Js.every_char]. intros [Hc Hws]%andb_true_iff.
  rewrite append_cons. cbn [Js.trimStart]. rewrite Hc. apply IH, Hws.
Qed.

Lemma digits_prefix_stops (d : Decimal.uint) (rest : string) :
  no_leading_digit rest ->
  digits_prefix (string_of_uint d +:+ rest) = d.
Proof.
  intro Hrest. induction d; cbn [string_of_uint];
    try (rewrite append_cons; cbn [digits_prefix]; rewrite IHd; reflexivity).
  change (EmptyString +:+ rest) with rest.
  destruct rest as [|c r]; [reflexivity|].
  simpl in *. rewrite Hrest. reflexivity.
Qed.

(** X7. A size given as a string is read like [parseInt] reads it: white
    space in front is skipped and reading stops at the first character that
    is no digit, so a fraction or a unit after the digits is dropped and not
    rounded. *)
Theorem formatFileSize_reads_leading_integer (n : Z) (ws rest : string) :
  0 <= n ->
  Js.every_char Js.isWhiteSpace ws = true ->
  no_leading_digit rest ->
  formatFileSize (OfString (ws +:+ Number_toString n +:+ rest))
  = formatFileSize (OfNumber n).
Proof.
  intros Hn Hws Hrest.
  assert (E : parseInt10 (ws +:+ Number_toString n +:+ rest) = Some n).
  { unfold parseInt10. rewrite (trimStart_skips _ _ Hws).
    unfold Number_toString.
    destruct (n <? 0) eqn:E; [apply Z.ltb_lt in E; lia|].
    destruct (string_of_uint_head (N.to_uint (Z.to_N n)))
      as (c & r & Hc & Hcws & Hm & Hp); [apply N_to_uint_nonnil|].
    rewrite Hc, append_cons. cbn [Js.trimStart].
    rewrite Hcws, Hm, Hp. rewrite <- append_cons, <- Hc.
    rewrite (digits_prefix_stops _ _ Hrest).
    pose proof (N_to_uint_nonnil (Z.to_N n)) as Hnil.
    destruct (N.to_uint (Z.to_N n)) eqn:Eu; [contradiction | ..];
      rewrite <- Eu, DecimalN.Unsigned.of_to; f_equal; lia. }
  unfold formatFileSize at 1. rewrite E. reflexivity.
Qed.

(** The theorem on a size with a fraction and on one with a unit. *)
Lemma formatFileSize_reads_leading_integer_witness :
  formatFileSize (OfString "1023.9") = "1023 Bytes"
  /\ formatFileSize (OfString " 2048 bytes") = "2 KB".
Proof.
  split.
  - exact (eq_trans
             (formatFileSize_reads_leading_integer 1023 EmptyString ".9"
                ltac:(lia) eq_refl eq_refl)
             eq_refl).
  - exact (eq_trans
             (formatFileSize_reads_leading_integer 2048 " " " bytes"
                ltac:(lia) eq_refl eq_refl)
             eq_refl).
Defined.

(** ** More on the service *)

Lemma user_method_run {A} (c : UserCredentials.t) (f : Drive -> M A)
    (st : State) :
  bind (createUserDriveInstance c) f st
  = f (user_handle st)
      {| this := this st;
         heap := <[ fresh (dom (heap st))
                    := user_client (options (this st)) c ]> (heap st);
         calls := calls st |}.
Proof. unfold bind. rewrite createUserDriveInstance_run. reflexivity. Qed.

Lemma uploadFileToUserDrive_result (remote : Invocation -> Outcome)
    (content : Readable + Buffer) (opts : UploadFileOptions.t)
    (u : UserDriveOptions) (st : State) :
  validateFileName (UploadFileOptions.name opts) = true ->
  fst (uploadFileToUserDrive remote content opts u st)
  = match remote (through_user st u
                    (create_request content opts (upload_mimeType opts))) with
    | Resolved data =>
        Return {| metadata := data; downloadUrl := viewer_url data |}
    | Rejected error =>
        Throw (new_FileUploadError (message_or "Unknown upload error" error)
                 (Some (UploadFileOptions.name opts))
                 (Error_or_undefined error))
    end.
Proof.
  intro H. unfold uploadFileToUserDrive. rewrite H. cbn [negb].
  rewrite user_method_run, upload_via_run.
  cbn [fst heap auth user_handle google_drive]. rewrite lookup_insert_eq.
  reflexivity.
Qed.

Lemma uploadFile_result (remote : Invocation -> Outcome)
    (content : Readable + Buffer) (opts : UploadFileOptions.t) (st : State) :
  validateFileName (UploadFileOptions.name opts) = true ->
  fst (uploadFile remote content opts st)
  = match remote (through_service st
                    (create_request content opts (upload_mimeType opts))) with
    | Resolved data =>
        Return {| metadata := data; downloadUrl := viewer_url data |}
    | Rejected error =>
        Throw (new_FileUploadError (message_or "Unknown upload error" error)
                 (Some (UploadFileOptions.name opts))
                 (Error_or_undefined error))
    end.
Proof.
  intro H. rewrite (uploadFile_run _ _ _ _ H), upload_via_run. reflexivity.
Qed.

Lemma downloadFile_result (remote : Invocation -> Outcome)
    (fileId : string) (st : State) :
  fileId_missing fileId = false ->
  fst (downloadFile remote fileId st)
  = match remote (through_service st (download_request fileId)) with
    | Resolved data => Return data
    | Rejected error =>
        Throw (download_catch "File not found" "Access denied" fileId error)
    end.
Proof.
  intro H. unfold downloadFile. rewrite H.
  unfold bind, get_this, download_via, bind, await. cbn [fst snd].
  fold (download_request fileId).
  fold (through_service st (download_request fileId)).
  destruct (remote _); reflexivity.
Qed.

Lemma downloadFileFromUserDrive_result (remote : Invocation -> Outcome)
    (fileId : string) (u : UserDriveOptions) (st : State) :
  fileId_missing fileId = false ->
  fst (downloadFileFromUserDrive remote fileId u st)
  = match remote (through_user st u (download_request fileId)) with
    | Resolved data => Return data
    | Rejected error =>
        Throw (download_catch "File not found in user drive"
                 "Access denied to user drive" fileId error)
    end.
Proof.
  intro H. unfold downloadFileFromUserDrive. rewrite H.
  rewrite user_method_run. unfold download_via, bind, await.
  cbn [fst snd heap auth user_handle google_drive].
  rewrite lookup_insert_eq.
  fold (download_request fileId). fold (user_handle st).
  fold (through_user st u (download_request fileId)).
  destruct (remote _); reflexivity.
Qed.

Lemma getFileMetadata_result (remote : Invocation -> Outcome)
    (fileId : string) (st : State) :
  fileId_missing fileId = false ->
  fst (getFileMetadata remote fileId st)
  = match remote (through_service st (metadata_request fileId)) with
    | Resolved data => Return data
    | Rejected error =>
        Throw (new_FileDownloadError (message_or "Unknown error" error)
                 (Some fileId) (Error_or_undefined error))
    end.
Proof.
  intro H. unfold getFileMetadata. rewrite H.
  unfold bind, get_this, metadata_via, bind, await. cbn [fst snd].
  fold (metadata_request fileId).
  fold (through_service st (metadata_request fileId)).
  destruct (remote _); reflexivity.
Qed.

Lemma getFileMetadataFromUserDrive_result (remote : Invocation -> Outcome)
    (fileId : string) (u : UserDriveOptions) (st : State) :
  fileId_missing fileId = false ->
  fst (getFileMetadataFromUserDrive remote fileId u st)
  = match remote (through_user st u (metadata_request fileId)) with
    | Resolved data => Return data
    | Rejected error =>
        Throw (new_FileDownloadError (message_or "Unknown error" error)
                 (Some fileId) (Error_or_undefined error))
    end.
Proof.
  intro H. unfold getFileMetadataFromUserDrive. rewrite H.
  rewrite user_method_run. unfold metadata_via, bind, await.
  cbn [fst snd heap auth user_handle google_drive].
  rewrite lookup_insert_eq.
  fold (metadata_request fileId). fold (user_handle st).
  fold (through_user st u (metadata_request fileId)).
  destruct (remote _); reflexivity.
Qed.

Lemma testConnection_result (remote : Invocation -> Outcome) (st : State) :
  fst (testConnection remote st)
  = Return (match remote (through_service st (about_get "user")) with
            | Resolved _ => true
            | Rejected _ => false
            end).
Proof.
  unfold testConnection, bind, get_this. rewrite connection_via_run.
  reflexivity.
Qed.

Lemma testUserDriveConnection_result (remote : Invocation -> Outcome)
    (u : UserDriveOptions) (st : State) :
  fst (testUserDriveConnection remote u st)
  = Return (match remote (through_user st u (about_get "user")) with
            | Resolved _ => true
            | Rejected _ => false
            end).
Proof.
  unfold testUserDriveConnection. rewrite user_method_run, connection_via_run.
  cbn [fst heap auth user_handle google_drive]. rewrite lookup_insert_eq.
  reflexivity.
Qed.

(** X8. When the remote create call rejects, both upload methods throw an
    upload error that carries the file name and the message of the
    rejection (a fixed text when the rejection is no [Error] instance); the
    cause is the rejection value when that is an [Error] instance and is not
    set otherwise. *)
Theorem upload_rejection (remote : Invocation -> Outcome) (st : State)
    (content : Readable + Buffer) (opts : UploadFileOptions.t)
    (u : UserDriveOptions) (error : JsValue) :
  validateFileName (UploadFileOptions.name opts) = true ->
  (forall inv,
      request inv = create_request content opts (upload_mimeType opts) ->
      remote inv = Rejected error) ->
  exists e,
    fst (uploadFile remote content opts st) = Throw e
    /\ fst (uploadFileToUserDrive remote content opts u st) = Throw e
    /\ Err.class e = FileUploadError
    /\ Err.fileName e = Some (UploadFileOptions.name opts)
    /\ Err.cause e = (if instanceof_Error error then Some error else None)
    /\ Err.message e
       = "File upload failed: "
         +:+ (if instanceof_Error error then Error_message error
              else "Unknown upload error").
Proof.
  intros Hname Hrej. eexists.
  rewrite (uploadFile_result _ _ _ _ Hname),
    (uploadFileToUserDrive_result _ _ _ _ _ Hname).
  rewrite !Hrej by reflexivity. repeat split.
Qed.

(** The theorem on the failing upload of the test suite. *)
Lemma upload_rejection_witness :
  exists e,
    fst (uploadFile (rejecting (JsObject true (Some "Upload failed") None))
           (inr []) report_pdf example_state) = Throw e
    /\ Err.message e = "File upload failed: Upload failed"
    /\ Err.cause e = Some (JsObject true (Some "Upload failed") None).
Proof.
  destruct (upload_rejection
              (rejecting (JsObject true (Some "Upload failed") None))
              example_state (inr []) report_pdf example_user
              (JsObject true (Some "Upload failed") None)
              eq_refl (fun _ _ => eq_refl))
    as (e & He & _ & _ & _ & Hc & Hm).
  exists e. repeat split; assumption.
Defined.

(** X9. [downloadFileFromUserDrive] maps a rejected remote get like
    [downloadFile] does, with its own texts: code 404 gives a download error
    that names the user drive, code 403 an authentication error that names
    it, anything else a download error with the message of the rejection;
    the cause is set for [Error] instances only. *)
Theorem downloadFileFromUserDrive_rejection (remote : Invocation -> Outcome)
    (st : State) (fileId : string) (u : UserDriveOptions) (error : JsValue) :
  ~ all_whitespace fileId ->
  remote (through_user st u (download_request fileId)) = Rejected error ->
  exists e,
    fst (downloadFileFromUserDrive remote fileId u st) = Throw e
    /\ Err.cause e = (if instanceof_Error error then Some error else None)
    /\ (carries_code 404 error ->
        Err.class e = FileDownloadError
        /\ Err.fileId e = Some fileId
        /\ Err.message e
           = "File download failed: File not found in user drive")
    /\ (carries_code 403 error ->
        Err.class e = AuthenticationError
        /\ Err.fileId e = None
        /\ Err.statusCode e = Some 401
        /\ Err.message e
           = "Authentication failed: Access denied to user drive")
    /\ (~ carries_code 404 error -> ~ carries_code 403 error ->
        Err.class e = FileDownloadError
        /\ Err.fileId e = Some fileId
        /\ Err.message e
           = "File download failed: "
             +:+ (if instanceof_Error error then Error_message error
                  else "Unknown download error")).
Proof.
  intros Hid%fileId_present Hrej. eexists.
  rewrite (downloadFileFromUserDrive_result _ _ _ _ Hid), Hrej.
  split; [reflexivity|]. split; [apply download_catch_cause|].
  split; [|split].
  - intro H. unfold download_catch. rewrite (carries_code_object _ _ H).
    apply code_is_carries in H. rewrite H. repeat split.
  - intro H. unfold download_catch. rewrite (carries_code_object _ _ H).
    destruct H as (b & m & ->). repeat split.
  - intros H4 H3. rewrite (download_catch_other _ _ _ _ H4 H3).
    repeat split.
Qed.

(** The theorem on a file missing from a user's drive. *)
Lemma downloadFileFromUserDrive_rejection_witness :
  exists e,
    fst (downloadFileFromUserDrive (rejecting error_404) "abc" example_user
           example_state) = Throw e
    /\ Err.message e = "File download failed: File not found in user drive"
    /\ Err.cause e = Some error_404.
Proof.
  assert (Hid : ~ all_whitespace "abc").
  { intro H. specialize (H "a"%char (or_introl eq_refl)). discriminate H. }
  destruct (downloadFileFromUserDrive_rejection (rejecting error_404)
              example_state "abc" example_user error_404 Hid eq_refl)
    as (e & He & Hc & H404 & _).
  exists e. split; [exact He|]. split; [|exact Hc].
  apply H404. exists true, (Some "File not found: abc"). reflexivity.
Defined.

Lemma state_after_module_shape (remote : Invocation -> Outcome)
    (c : ModuleCall) (st : State) :
  state_after_module remote c st = st
  \/ exists req,
       state_after_module remote c st
       = {| this := this st; heap := heap st;
            calls := calls st ++ [through_service st req] |}.
Proof.
  destruct c as [content opts | fileId | fileId |]; cbn [state_after_module].
  - unfold uploadFile.
    destruct (negb (validateFileName (UploadFileOptions.name opts)));
      [left; reflexivity|].
    right. unfold bind at 1, get_this. rewrite upload_via_run.
    eexists. reflexivity.
  - unfold downloadFile.
    destruct (fileId_missing fileId); [left; reflexivity|].
    right. unfold bind at 1, get_this, download_via, bind, await.
    destruct (remote _); eexists; reflexivity.
  - unfold getFileMetadata.
    destruct (fileId_missing fileId); [left; reflexivity|].
    right. unfold bind at 1, get_this, metadata_via, bind, await.
    destruct (remote _); eexists; reflexivity.
  - right. unfold testConnection, bind at 1, get_this.
    rewrite connection_via_run. eexists. reflexivity.
Qed.

(** X10. A module-wide method never writes the service object or the store
    of OAuth2 clients, and it makes no remote call or exactly one, through
    the service's own handle. *)
Theorem module_call_frame (remote : Invocation -> Outcome) (c : ModuleCall)
    (st : State) :
  let st' := state_after_module remote c st in
  this st' = this st
  /\ heap st' = heap st
  /\ (calls st' = calls st
      \/ exists req, calls st' = (calls st ++ [through_service st req])%list).
Proof.
  intro st'. subst st'.
  destruct (state_after_module_shape remote c st) as [-> | [req ->]].
  - repeat split. left. reflexivity.
  - repeat split. right. exists req. reflexivity.
Qed.

(** X11. Towards a remote side that answers a request the same through any
    handle, a per-user upload, metadata fetch or connection test gives the
    result of its module-wide counterpart; so does a per-user download
    unless the remote side rejects it with code 404 or 403, where only the
    text of the error differs. *)
Theorem per_user_result_is_module_result (remote : Invocation -> Outcome)
    (st : State) (u : UserDriveOptions) :
  handle_blind remote ->
  (forall content opts,
      fst (uploadFileToUserDrive remote content opts u st)
      = fst (uploadFile remote content opts st))
  /\ (forall fileId,
      fst (getFileMetadataFromUserDrive remote fileId u st)
      = fst (getFileMetadata remote fileId st))
  /\ fst (testUserDriveConnection remote u st)
     = fst (testConnection remote st)
  /\ (forall fileId,
      (forall error,
          remote (through_service st (download_request fileId))
          = Rejected error ->
          ~ carries_code 404 error /\ ~ carries_code 403 error) ->
      fst (downloadFileFromUserDrive remote fileId u st)
      = fst (downloadFile remote fileId st)).
Proof.
  intro Hblind.
  assert (Hsame : forall req,
            remote (through_user st u req) = remote (through_service st req))
    by (intro req; apply Hblind; reflexivity).
  split; [|split; [|split]].
  - intros content opts.
    destruct (validateFileName (UploadFileOptions.name opts)) eqn:Hname.
    + rewrite (uploadFile_result _ _ _ _ Hname),
        (uploadFileToUserDrive_result _ _ _ _ _ Hname), Hsame. reflexivity.
    + unfold uploadFile, uploadFileToUserDrive. rewrite Hname. reflexivity.
  - intro fileId. destruct (fileId_missing fileId) eqn:Hid.
    + unfold getFileMetadata, getFileMetadataFromUserDrive. rewrite Hid.
      reflexivity.
    + rewrite (getFileMetadata_result _ _ _ Hid),
        (getFileMetadataFromUserDrive_result _ _ _ _ Hid), Hsame.
      reflexivity.
  - rewrite testConnection_result, testUserDriveConnection_result, Hsame.
    reflexivity.
  - intros fileId Hcodes. destruct (fileId_missing fileId) eqn:Hid.
    + unfold downloadFile, downloadFileFromUserDrive. rewrite Hid.
      reflexivity.
    + rewrite (downloadFile_result _ _ _ Hid),
        (downloadFileFromUserDrive_result _ _ _ _ Hid), Hsame.
      destruct (remote (through_service st (download_request fileId)))
        as [data | error] eqn:E; [reflexivity|].
      destruct (Hcodes error eq_refl) as [H4 H3].
      rewrite !(download_catch_other _ _ _ _ H4 H3). reflexivity.
Qed.

Lemma failing_downloads_blind (error : JsValue) (data : ResponseData) :
  handle_blind (failing_downloads error data).
Proof. intros inv inv' E. unfold failing_downloads. rewrite E. reflexivity. Qed.

(** The theorem on a remote side that fails downloads with a server error:
    both downloads throw the same error. *)
Lemma per_user_result_is_module_result_witness :
  fst (downloadFileFromUserDrive
         (failing_downloads error_500 (file_with_id "X")) "abc"
         example_user example_state)
  = fst (downloadFile (failing_downloads error_500 (file_with_id "X")) "abc"
           example_state).
Proof.
  destruct (per_user_result_is_module_result
              (failing_downloads error_500 (file_with_id "X"))
              example_state example_user
              (failing_downloads_blind error_500 (file_with_id "X")))
    as (_ & _ & _ & H).
  apply H. intros error E. injection E as <-.
  split; intros (b & m & E); discriminate E.
Defined.

(** X12. The constructor builds the OAuth2 client of the service from the
    id, secret and redirect URI of the options, at a location that was not
    in use, and leaves every client already in the store alone.  It installs
    the refresh token and the access token when the refresh token is present
    and not empty; otherwise the client keeps empty credentials, also when
    an access token was given. *)
Theorem constructor_credentials (opts : ModuleOptions.t)
    (heap0 : gmap loc OAuth2Client) (calls0 : list Invocation) :
  let st := new_GoogleDriveService opts heap0 calls0 in
  options (this st) = opts
  /\ version (drive (this st)) = "v3"
  /\ calls st = calls0
  /\ heap0 !! auth (drive (this st)) = None
  /\ (forall l, is_Some (heap0 !! l) -> heap st !! l = heap0 !! l)
  /\ exists o,
       heap st !! auth (drive (this st)) = Some o
       /\ client_id o = ModuleOptions.clientId opts
       /\ client_secret o = ModuleOptions.clientSecret opts
       /\ redirect_uri o = ModuleOptions.redirectUri opts
       /\ client_credentials o
          = if truthy_string (ModuleOptions.refreshToken opts)
            then {| refresh_token := ModuleOptions.refreshToken opts;
                    access_token := ModuleOptions.accessToken opts |}
            else {| refresh_token := None; access_token := None |}.
Proof.
  intro st. subst st.
  unfold new_GoogleDriveService, initializeDrive, OAuth2_new,
    OAuth2_setCredentials.
  cbn [this heap calls drive options auth version google_drive].
  pose proof (fresh_location_unused heap0) as Hfresh.
  split; [reflexivity|]. split; [reflexivity|]. split; [reflexivity|].
  split; [exact Hfresh|]. split.
  - intros l [x Hx].
    assert (Hne : fresh (dom heap0) <> l)
      by (intros <-; rewrite Hfresh in Hx; discriminate Hx).
    destruct (truthy_string (ModuleOptions.refreshToken opts)).
    + rewrite alter_insert_eq. apply lookup_insert_ne, Hne.
    + apply lookup_insert_ne, Hne.
  - destruct (truthy_string (ModuleOptions.refreshToken opts)).
    + rewrite alter_insert_eq, lookup_insert_eq. eexists.
      split; [reflexivity|]. repeat split.
    + rewrite lookup_insert_eq. eexists. split; [reflexivity|].
      repeat split.
Qed.

(** The theorem on options with an access token and no refresh token:
    the token is not installed. *)
Lemma constructor_credentials_witness :
  exists o,
    heap (new_GoogleDriveService
            {| ModuleOptions.clientId := "id";
               ModuleOptions.clientSecret := "secret";
               ModuleOptions.redirectUri := "uri";
               ModuleOptions.refreshToken := None;
               ModuleOptions.accessToken := Some "access-token";
               ModuleOptions.scope := None |} ∅ [])
    !! 1%positive = Some o
    /\ client_credentials o
       = {| refresh_token := None; access_token := None |}.
Proof.
  destruct (constructor_credentials
              {| ModuleOptions.clientId := "id";
                 ModuleOptions.clientSecret := "secret";
                 ModuleOptions.redirectUri := "uri";
                 ModuleOptions.refreshToken := None;
                 ModuleOptions.accessToken := Some "access-token";
                 ModuleOptions.scope := None |} ∅ [])
    as (_ & _ & _ & _ & _ & o & Ho & _ & _ & _ & Hc).
  exists o. split; [exact Ho | exact Hc].
Defined.

(** X13. Two per-user calls in a row that each reach the remote side go
    through two different OAuth2 clients, also for the same credentials: no
    handle is kept from one call to the next; the client of the first call
    stays in the store as the call left it. *)
Theorem successive_user_calls_use_distinct_clients
    (remote : Invocation -> Outcome) (c1 c2 : UserCall) (st : State)
    (inv1 inv2 : Invocation) :
  let st1 := state_after remote c1 st in
  let st2 := state_after remote c2 st1 in
  calls st1 = (calls st ++ [inv1])%list ->
  calls st2 = (calls st1 ++ [inv2])%list ->
  auth (via inv1) <> auth (via inv2)
  /\ heap st2 !! auth (via inv1) = client inv1
  /\ heap st2 !! auth (via inv2) = client inv2
  /\ client inv1
     = Some (user_client (options (this st)) (caller_credentials c1))
  /\ client inv2
     = Some (user_client (options (this st)) (caller_credentials c2)).
Proof.
  intros st1 st2 H1 H2. subst st1 st2.
  destruct (state_after_shape remote c1 st) as [E1 | [req1 E1]];
    rewrite E1 in *.
  { exfalso. apply (f_equal length) in H1. rewrite length_app in H1.
    simpl in H1. lia. }
  cbn [calls] in H1. apply app_inv_head in H1. injection H1 as <-.
  set (st1 := {| this := this st; heap := _; calls := _ |}) in *.
  destruct (state_after_shape remote c2 st1) as [E2 | [req2 E2]];
    rewrite E2 in *.
  { exfalso. apply (f_equal length) in H2. rewrite length_app in H2.
    simpl in H2. lia. }
  cbn [calls] in H2. apply app_inv_head in H2. injection H2 as <-.
  cbn [via client auth google_drive heap this options].
  pose proof (fresh_location_unused (heap st1)) as Hfresh.
  assert (Hne : fresh (dom (heap st1)) <> fresh (dom (heap st))).
  { intro E. rewrite E in Hfresh. subst st1. cbn [heap] in Hfresh.
    rewrite lookup_insert_eq in Hfresh. discriminate Hfresh. }
  split; [intro E; apply Hne; symmetry; exact E|].
  split; [|split; [|split; reflexivity]].
  - rewrite lookup_insert_ne by exact Hne. subst st1. cbn [heap].
    apply lookup_insert_eq.
  - apply lookup_insert_eq.
Qed.

(** The theorem on two connection tests for the same user. *)
Lemma successive_user_calls_use_distinct_clients_witness :
  exists inv1 inv2,
    calls (state_after (rejecting error_500) (TestUserDrive example_user)
             (state_after (rejecting error_500) (TestUserDrive example_user)
                example_state))
    = [inv1; inv2]
    /\ auth (via inv1) <> auth (via inv2).
Proof.
  eexists _, _. split; [vm_compute; reflexivity|].
  refine (proj1 (successive_user_calls_use_distinct_clients
                   (rejecting error_500) (TestUserDrive example_user)
                   (TestUserDrive example_user) example_state _ _ _ _)).
  - vm_compute. reflexivity.
  - vm_compute. reflexivity.
Defined.

Lemma step_keeps_service (remote : Invocation -> Outcome) (c : ServiceCall)
    (st : State) :
  initialized st ->
  let st' := step remote st c in
  this st' = this st
  /\ heap st' !! auth (drive (this st)) = heap st !! auth (drive (this st))
  /\ exists new, calls st' = (calls st ++ new)%list /\ (length new <= 1)%nat.
Proof.
  intros Hinit st'. subst st'. destruct c as [c | c]; cbn [step].
  - destruct (state_after_module_shape remote c st) as [-> | [req ->]].
    + repeat split. exists []. rewrite app_nil_r. split; [reflexivity|].
      simpl. lia.
    + repeat split. eexists. split; [reflexivity|]. simpl. lia.
  - destruct (state_after_shape remote c st) as [-> | [req ->]].
    + repeat split. exists []. rewrite app_nil_r. split; [reflexivity|].
      simpl. lia.
    + cbn [this heap calls]. split; [reflexivity|]. split.
      * apply lookup_insert_ne. intro E. destruct Hinit as [x Hx].
        rewrite <- E, fresh_location_unused in Hx. discriminate Hx.
      * eexists. split; [reflexivity|]. simpl. lia.
Qed.

(** X14. Whatever public methods are called, in whatever order and with
    whatever answers from the remote side, the service keeps the options and
    the handle the constructor gave it, the OAuth2 client of that handle is
    never written, past remote calls are never dropped or rewritten, and at
    most one remote call is made per method call. *)
Theorem run_keeps_service (remote : Invocation -> Outcome)
    (cs : list ServiceCall) (st : State) :
  initialized st ->
  let st' := run remote cs st in
  this st' = this st
  /\ heap st' !! auth (drive (this st)) = heap st !! auth (drive (this st))
  /\ initialized st'
  /\ exists new,
       calls st' = (calls st ++ new)%list
       /\ (length new <= length cs)%nat.
Proof.
  revert st. induction cs as [|c cs IH]; intros st Hinit; cbn [run fold_left].
  - repeat split; [exact Hinit|]. exists []. rewrite app_nil_r.
    split; [reflexivity | simpl; lia].
  - destruct (step_keeps_service remote c st Hinit)
      as (Hthis & Hheap & new1 & Hcalls & Hlen).
    assert (Hinit1 : initialized (step remote st c)).
    { unfold initialized. rewrite Hthis, Hheap. exact Hinit. }
    destruct (IH _ Hinit1) as (Hthis' & Hheap' & Hinit' & new2 & Hcalls' & Hlen').
    fold (run remote cs (step remote st c)).
    rewrite Hthis in Hthis', Hheap'.
    split; [exact Hthis'|]. split; [rewrite Hheap'; exact Hheap|].
    split; [exact Hinit'|].
    exists (new1 ++ new2)%list. split.
    + rewrite Hcalls', Hcalls, <- app_assoc. reflexivity.
    + rewrite length_app. simpl. lia.
Qed.

(** The theorem on a freshly built service and a mixed run of calls. *)
Lemma run_keeps_service_witness :
  this (run (rejecting error_403)
          [OnUser (TestUserDrive example_user);
           OnModule (DownloadCall "abc");
           OnUser (DownloadFromUserDrive "abc" example_user)]
          example_state)
  = this example_state.
Proof.
  exact (proj1 (run_keeps_service (rejecting error_403)
                  [OnUser (TestUserDrive example_user);
                   OnModule (DownloadCall "abc");
                   OnUser (DownloadFromUserDrive "abc" example_user)]
                  example_state
                  (new_GoogleDriveService_initialized example_options ∅ []))).
Defined.

Lemma download_catch_classes (notFound denied fileId : string)
    (error : JsValue) :
  let e := download_catch notFound denied fileId error in
  (Err.class e = FileDownloadError
   /\ Err.code e = Some "FILE_DOWNLOAD_ERROR"
   /\ Err.fileId e = Some fileId)
  \/ (Err.class e = AuthenticationError
      /\ Err.code e = Some "AUTHENTICATION_ERROR"
      /\ Err.statusCode e = Some 401
      /\ carries_code 403 error).
Proof.
  intro e. subst e. unfold download_catch.
  destruct (truthy error && JsType_eqb (typeof error) t_object
            && has_code error); [|left; repeat split].
  destruct (code_is 404 error); [left; repeat split|].
  destruct (code_is 403 error) eqn:E; [|left; repeat split].
  right. repeat split. apply code_is_carries, E.
Qed.

(** X15. Each method throws only its own kind of error: the upload methods
    an upload error with the file name, the metadata methods a download
    error with the file id, the download methods a download error with the
    file id or, only after a rejection with code 403, an authentication
    error with status 401; the connection tests throw nothing.  No method
    throws a configuration error. *)
Theorem thrown_errors_by_method (remote : Invocation -> Outcome)
    (st : State) (u : UserDriveOptions) :
  (forall content opts e,
      fst (uploadFile remote content opts st) = Throw e
      \/ fst (uploadFileToUserDrive remote content opts u st) = Throw e ->
      Err.class e = FileUploadError
      /\ Err.code e = Some "FILE_UPLOAD_ERROR"
      /\ Err.fileName e = Some (UploadFileOptions.name opts))
  /\ (forall fileId e,
      fst (getFileMetadata remote fileId st) = Throw e
      \/ fst (getFileMetadataFromUserDrive remote fileId u st) = Throw e ->
      Err.class e = FileDownloadError
      /\ Err.code e = Some "FILE_DOWNLOAD_ERROR"
      /\ Err.fileId e = Some fileId)
  /\ (forall fileId e,
      fst (downloadFile remote fileId st) = Throw e ->
      (Err.class e = FileDownloadError
       /\ Err.code e = Some "FILE_DOWNLOAD_ERROR"
       /\ Err.fileId e = Some fileId)
      \/ (Err.class e = AuthenticationError
          /\ Err.statusCode e = Some 401
          /\ exists error,
               remote (through_service st (download_request fileId))
               = Rejected error
               /\ carries_code 403 error))
  /\ (forall fileId e,
      fst (downloadFileFromUserDrive remote fileId u st) = Throw e ->
      (Err.class e = FileDownloadError
       /\ Err.code e = Some "FILE_DOWNLOAD_ERROR"
       /\ Err.fileId e = Some fileId)
      \/ (Err.class e = AuthenticationError
          /\ Err.statusCode e = Some 401
          /\ exists error,
               remote (through_user st u (download_request fileId))
               = Rejected error
               /\ carries_code 403 error))
  /\ (forall e, fst (testConnection remote st) <> Throw e)
  /\ (forall e, fst (testUserDriveConnection remote u st) <> Throw e).
Proof.
  split; [|split; [|split; [|split; [|split]]]].
  - intros content opts e H.
    destruct (validateFileName (UploadFileOptions.name opts)) eqn:Hname.
    + rewrite (uploadFile_result _ _ _ _ Hname),
        (uploadFileToUserDrive_result _ _ _ _ _ Hname) in H.
      destruct H as [H | H];
        destruct (remote _); try discriminate H;
        injection H as <-; repeat split.
    + unfold uploadFile, uploadFileToUserDrive in H. rewrite Hname in H.
      destruct H as [H | H]; injection H as <-; repeat split.
  - intros fileId e H. destruct (fileId_missing fileId) eqn:Hid.
    + unfold getFileMetadata, getFileMetadataFromUserDrive in H.
      rewrite Hid in H.
      destruct H as [H | H]; injection H as <-; repeat split.
    + rewrite (getFileMetadata_result _ _ _ Hid),
        (getFileMetadataFromUserDrive_result _ _ _ _ Hid) in H.
      destruct H as [H | H];
        destruct (remote _); try discriminate H;
        injection H as <-; repeat split.
  - intros fileId e H. destruct (fileId_missing fileId) eqn:Hid.
    + unfold downloadFile in H. rewrite Hid in H.
      injection H as <-. left. repeat split.
    + rewrite (downloadFile_result _ _ _ Hid) in H.
      destruct (remote _) as [data | error] eqn:E; [discriminate H|].
      injection H as <-.
      destruct (download_catch_classes "File not found" "Access denied"
                  fileId error) as [Hd | (Hc & _ & Hs & H403)].
      * left. exact Hd.
      * right. split; [exact Hc|]. split; [exact Hs|]. eauto.
  - intros fileId e H. destruct (fileId_missing fileId) eqn:Hid.
    + unfold downloadFileFromUserDrive in H. rewrite Hid in H.
      injection H as <-. left. repeat split.
    + rewrite (downloadFileFromUserDrive_result _ _ _ _ Hid) in H.
      destruct (remote _) as [data | error] eqn:E; [discriminate H|].
      injection H as <-.
      destruct (download_catch_classes "File not found in user drive"
                  "Access denied to user drive" fileId error)
        as [Hd | (Hc & _ & Hs & H403)].
      * left. exact Hd.
      * right. split; [exact Hc|]. split; [exact Hs|]. eauto.
  - intro e. rewrite testConnection_result. discriminate.
  - intro e. rewrite testUserDriveConnection_result. discriminate.
Qed.

(** The theorem on a failing connection test: nothing is thrown. *)
Lemma thrown_errors_by_method_witness :
  fst (testUserDriveConnection (rejecting plain_403) example_user
         example_state)
  <> Throw (new_AuthenticationError "Access denied" None).
Proof.
  destruct (thrown_errors_by_method (rejecting plain_403) example_state
              example_user) as (_ & _ & _ & _ & _ & Htest).
  apply Htest.
Defined.



(** X17. A MIME type given in the options, if not empty, is what both
    upload methods send: the extension of the name is not consulted and the
    given type is not checked against the table. *)
Theorem given_mimeType_is_sent (remote : Invocation -> Outcome) (st : State)
    (content : Readable + Buffer) (opts : UploadFileOptions.t)
    (u : UserDriveOptions) (m : string) :
  UploadFileOptions.mimeType opts = Some m ->
  m <> EmptyString ->
  validateFileName (UploadFileOptions.name opts) = true ->
  calls (snd (uploadFile remote content opts st))
  = (calls st
     ++ [through_service st (create_request content opts (JsString m))])%list
  /\ calls (snd (uploadFileToUserDrive remote content opts u st))
     = (calls st
        ++ [through_user st u (create_request content opts (JsString m))])%list.
Proof.
  intros Hm Hne Hname.
  assert (E : upload_mimeType opts = JsString m).
  { unfold upload_mimeType. rewrite Hm. cbn [truthy_string].
    rewrite (eqb_empty_false _ Hne). reflexivity. }
  split.
  - rewrite (uploadFile_run _ _ _ _ Hname), upload_via_run, E. reflexivity.
  - unfold uploadFileToUserDrive. rewrite Hname. cbn [negb].
    rewrite user_method_run, upload_via_run, E.
    cbn [snd calls heap auth user_handle google_drive].
    rewrite lookup_insert_eq. reflexivity.
Qed.

(** The theorem on the upload of the test suite: a text type for a name
    that ends in pdf. *)
Lemma given_mimeType_is_sent_witness :
  calls (snd (uploadFile (resolving (file_with_id "X")) (inr [])
                {| UploadFileOptions.name := "report.pdf";
                   UploadFileOptions.parents := None;
                   UploadFileOptions.mimeType := Some "text/plain" |}
                example_state))
  = [through_service example_state
       (create_request (inr [])
          {| UploadFileOptions.name := "report.pdf";
             UploadFileOptions.parents := None;
             UploadFileOptions.mimeType := Some "text/plain" |}
          (JsString "text/plain"))].
Proof.
  refine (proj1 (given_mimeType_is_sent (resolving (file_with_id "X"))
                   example_state (inr [])
                   {| UploadFileOptions.name := "report.pdf";
                      UploadFileOptions.parents := None;
                      UploadFileOptions.mimeType := Some "text/plain" |}
                   example_user "text/plain" eq_refl _ eq_refl)).
  discriminate.
Defined.

Lemma upload_mimeType_truthy (opts : UploadFileOptions.t) :
  truthy (upload_mimeType opts) = true.
Proof.
  unfold upload_mimeType.
  destruct (UploadFileOptions.mimeType opts) as [m|]; cbn [truthy_string].
  - destruct (String.eqb m EmptyString) eqn:E; cbn [negb].
    + apply getMimeTypeFromExtension_cases.
    + cbn [truthy]. rewrite E. reflexivity.
  - apply getMimeTypeFromExtension_cases.
Qed.

(** X18. What an upload method sends, when it sends anything: the name as
    given, which then has none of the nine forbidden characters and is not
    all white space; the parents as given; a MIME type that is never empty
    or undefined; the content, a buffer as a stream of one chunk; and the
    fixed list of fields. *)
Theorem upload_request_is_well_formed (remote : Invocation -> Outcome)
    (st : State) (content : Readable + Buffer) (opts : UploadFileOptions.t)
    (u : UserDriveOptions) (inv : Invocation) :
  In inv (calls (snd (uploadFile remote content opts st)))
  \/ In inv (calls (snd (uploadFileToUserDrive remote content opts u st))) ->
  ~ In inv (calls st) ->
  request inv = create_request content opts (upload_mimeType opts)
  /\ truthy (upload_mimeType opts) = true
  /\ ~ has_forbidden_char (UploadFileOptions.name opts)
  /\ ~ all_whitespace (UploadFileOptions.name opts).
Proof.
  intros Hin Hnew.
  destruct (validateFileName (UploadFileOptions.name opts)) eqn:Hname.
  - split; [|split; [apply upload_mimeType_truthy|]].
    + destruct Hin as [Hin | Hin].
      * rewrite (uploadFile_run _ _ _ _ Hname), upload_via_run in Hin.
        cbn [snd calls] in Hin. apply in_app_or in Hin as [Hin | Hin];
          [contradiction|]. destruct Hin as [<- | []]. reflexivity.
      * unfold uploadFileToUserDrive in Hin. rewrite Hname in Hin.
        cbn [negb] in Hin. rewrite user_method_run, upload_via_run in Hin.
        cbn [snd calls] in Hin. apply in_app_or in Hin as [Hin | Hin];
          [contradiction|]. destruct Hin as [<- | []]. reflexivity.
    + unfold validateFileName in Hname.
      apply andb_true_iff in Hname as [Hchars Hlen]. split.
      * intro H. apply invalidChars_test_spec in H. rewrite H in Hchars.
        discriminate Hchars.
      * intro H. apply trim_length_pos in H. rewrite H in Hlen.
        discriminate Hlen.
  - exfalso. unfold uploadFile, uploadFileToUserDrive in Hin.
    rewrite Hname in Hin. cbn [negb throw snd] in Hin.
    destruct Hin as [Hin | Hin]; contradiction.
Qed.

(** The theorem on the upload of report.pdf on behalf of a user. *)
Lemma upload_request_is_well_formed_witness :
  request (through_user example_state example_user
             (create_request (inr []) report_pdf
                (JsString "application/pdf")))
  = create_request (inr []) report_pdf (upload_mimeType report_pdf).
Proof.
  refine (proj1 (upload_request_is_well_formed
                   (resolving (file_with_id "X")) example_state (inr [])
                   report_pdf example_user _ _ _)).
  - right. vm_compute. left. reflexivity.
  - vm_compute. tauto.
Defined.
